(** * The recursive research agent: fan-out / fan-in orchestration

    The agent is the generator [research], listed in the README of the
    repository:

<<
    function* research(ctx, topic, depth) {
      const messages = [
        { role: "system", content: "Break topics into subtopics..." },
        { role: "user", content: `Research ${topic}` }
      ];
      while (true) {
        const response = yield* ctx.run(prompt, messages, ...);
        messages.push(response);
        if (response.tool_calls) {
          const handles = [];
          for (const tool_call of response.tool_calls) {
            const subtopic = ...;
            const handle = yield* ctx.beginRpc(research, subtopic, depth - 1);
            handles.push([tool_call, handle]);
          }
          for (const [tool_call, handle] of handles) {
            const result = yield* handle;
            messages.push({ role: "tool", ..., content: result });
          }
        } else {
          return response.content;
        }
      }
    }
>>

    A generator is embedded as the tree of the effects it yields; whoever
    answers the effects (the durable execution substrate, with the oracle
    behind [prompt] and the child invocations behind the handles) is a
    handler.  The [while (true)] loop is run with fuel.  The values the
    generator handles are JavaScript values: [depth] is a number (a double),
    and what the oracle and the children answer is whatever they answer. *)

From Stdlib Require Import String Ascii ZArith List Lia Bool Arith PeanoNat.
From Stdlib Require Import SpecFloat.
Import ListNotations.

Set Implicit Arguments.

Local Open Scope string_scope.
Local Open Scope list_scope.

(** ** JavaScript values *)

(** A JavaScript number is an IEEE 754 double: 53 bits of precision,
    exponents up to 1024. *)
Definition number := spec_float.

(** [x - y] *)
Definition minus (x y : number) : number := SFsub 53 1024 x y.

(** [x > y]; false when either is NaN. *)
Definition greater (x y : number) : bool := SFltb y x.

(** The literals [0] and [1]. *)
Definition zero : number := S754_zero false.
Definition one : number := SFone 53 1024.

(** The double nearest to an integer, ties to the even mantissa. *)
Definition of_Z (z : Z) : number := binary_normalize 53 1024 z 0 false.

(** The integer a number stands for, when it is one. *)
Definition integer (x : number) : option Z :=
  match x with
  | S754_zero _ => Some 0%Z
  | S754_finite s m e =>
      if (0 <=? e)%Z then Some (cond_Zopp s (Zpos m * 2 ^ e))
      else if (Zpos m mod 2 ^ (- e) =? 0)%Z
           then Some (cond_Zopp s (Zpos m / 2 ^ (- e)))
           else None
  | _ => None
  end.

(** [shl q k] is [q * 2 ^ k], for [0 <= k]. *)
Definition shl (q : positive) (k : Z) : positive :=
  match k with
  | Zpos n => Pos.iter xO q n
  | _ => q
  end.

(** The values that come back from the substrate: what survives its JSON
    encoding, and [undefined]. *)
#[warnings="-register-all"]
Inductive value : Type :=
| Undefined
| Null
| Boolean (b : bool)
| Number (n : number)
| Text (s : string)
| Array (items : list value)
| Object (properties : list (string * value)).

(** The value carried by a JavaScript exception: a [TypeError] of the
    engine, or whatever else was thrown. *)
Inductive error : Type :=
| TypeError (reason : string)
| Exception (reason : string).

(** The [TypeError] of reading a property of [undefined] or [null], and the
    one of iterating what is not iterable. *)
Definition not_readable (key : string) : error :=
  TypeError ("cannot read properties of undefined or null: " ++ key).

Definition not_iterable : error := TypeError "not iterable".

(** The own property [key] of an object. *)
Fixpoint lookup (key : string) (properties : list (string * value)) : value :=
  match properties with
  | [] => Undefined
  | (k, v) :: rest => if String.eqb k key then v else lookup key rest
  end.

(** [v.key], for the keys [research] reads ([tool_calls] and [content]).
    Reading a property of [undefined] or [null] throws; primitives and arrays
    have no property of these names. *)
Definition get (key : string) (v : value) : error + value :=
  match v with
  | Undefined | Null => inl (not_readable key)
  | Object properties => inr (lookup key properties)
  | _ => inr Undefined
  end.

(** [if (v)]: [undefined], [null], [false], [0], [-0], [NaN] and [""] are
    falsy; everything else, the empty array included, is truthy. *)
Definition truthy (v : value) : bool :=
  match v with
  | Undefined | Null => false
  | Boolean b => b
  | Number (S754_zero _) | Number S754_nan => false
  | Number _ => true
  | Text s => negb (String.eqb s "")
  | Array _ | Object _ => true
  end.

(** [for (const x of v)]: an array gives its items, a string its characters;
    nothing else among these values is iterable. *)
Definition iterate (v : value) : error + list value :=
  match v with
  | Array items => inr items
  | Text s => inr (map (fun c => Text (String c EmptyString)) (list_ascii_of_string s))
  | _ => inl not_iterable
  end.

(** ** Data *)

(** A promise of the substrate, as returned by [ctx.beginRpc]. *)
Definition handle := nat.

(** Entries of [messages], by the statement that puts them there. *)
Inductive message : Type :=
| System (text : string)                          (* { role: "system", content } *)
| User (text : string)                            (* { role: "user", content } *)
| Assistant (response : value)                    (* messages.push(response) *)
| Tool (tool_call_id : value) (content : value)   (* { role: "tool", ..., content } *).

(** The [id] of a tool call; [undefined] when the tool call is not an object
    or has none. *)
Definition identifier (tool_call : value) : value :=
  match tool_call with
  | Object properties => lookup "id" properties
  | _ => Undefined
  end.

(** Modelled from the spec: the fields elided as [...] in
    [messages.push({ role: "tool", ..., content: result })].  The spec's data
    model says a tool-result entry is tagged with the identifier of the
    originating decomposition request, so the entry carries the [id] of the
    tool call. *)
Definition tool_message (tool_call : value) (result : value) : message :=
  Tool (identifier tool_call) result.

Definition initial_messages (topic : string) : list message :=
  [ System "Break topics into subtopics..."; User ("Research " ++ topic) ].

(** The tool calls the loop [for (const tool_call of response.tool_calls)]
    goes through: the items of [response.tool_calls] when the test
    [if (response.tool_calls)] passes and the value can be iterated. *)
Definition tool_calls (response : value) : option (list value) :=
  match get "tool_calls" response with
  | inr calls =>
      if truthy calls then
        match iterate calls with
        | inr tcs => Some tcs
        | inl _ => None
        end
      else None
  | inl _ => None
  end.

(** ** Generators *)

(** What the substrate may answer to a yielded effect: a value, an exception
    thrown back into the generator, or nothing (the promise never settles). *)
Inductive reply (A : Type) : Type :=
| Resolved (a : A)
| Rejected (e : error)
| Pending.

Arguments Rejected {A} e.
Arguments Pending {A}.

(** The effects [research] yields, and the exceptions its own code raises.
    What is elided after [messages] in [ctx.run(prompt, messages, ...)] is
    computed from what [research] has at hand, [messages] (with the topic in
    it) and [depth]; the README says that [depth > 0] enables tool and
    sub-research spawning.  Whatever the elided argument is, the oracle call
    carries [depth], and the oracle may depend on it. *)
Inductive gen (R : Type) : Type :=
| Ret (r : R)
| Throw (e : error)
| Run (messages : list message) (depth : number) (k : value -> gen R)
    (* yield* ctx.run(prompt, messages, ...) *)
| BeginRpc (subtopic : string) (depth : number) (k : handle -> gen R)
    (* yield* ctx.beginRpc(research, subtopic, depth) *)
| Await (h : handle) (k : value -> gen R)
    (* yield* handle *).

Arguments Ret {R} r.
Arguments Throw {R} e.
Arguments Run {R} messages depth k.
Arguments BeginRpc {R} subtopic depth k.
Arguments Await {R} h k.

Fixpoint bind {A B : Type} (m : gen A) (f : A -> gen B) : gen B :=
  match m with
  | Ret a => f a
  | Throw e => Throw e
  | Run messages depth k => Run messages depth (fun r => bind (k r) f)
  | BeginRpc subtopic depth k => BeginRpc subtopic depth (fun h => bind (k h) f)
  | Await h k => Await h (fun s => bind (k s) f)
  end.

Declare Scope gen_scope.
Delimit Scope gen_scope with gen.
Notation "x <- m ;; f" := (bind m (fun x => f))
  (at level 61, m at next level, right associativity) : gen_scope.

(** How one run of a generator ends. *)
Inductive outcome (R : Type) : Type :=
| Returned (r : R)     (* return r *)
| Threw (e : error)    (* an exception left the generator *)
| Blocked.             (* suspended on a promise that never settles *)

Arguments Threw {R} e.
Arguments Blocked {R}.

(** An effect together with the answer it got. *)
Inductive io : Type :=
| IoRun (messages : list message) (a : reply value)
| IoBeginRpc (subtopic : string) (depth : number) (a : reply handle)
| IoAwait (h : handle) (a : reply value).

(** Whoever answers the effects, with a state [W] of its own. *)
Record handler (W : Type) : Type := mk_handler {
  on_run : list message -> number -> W -> W * reply value;
  on_beginRpc : string -> number -> W -> W * reply handle;
  on_await : handle -> W -> W * reply value
}.

Section Exec.
Context {W : Type} (H : handler W).

(** Run a loop-free generator to its end against [H]: the final state of
    [H], the effects yielded with their answers, and the outcome.  There is
    no [try] in [research]: a rejected answer ends the generator, and so
    does an exception of its own. *)
Fixpoint exec {R : Type} (p : gen R) (w : W) : W * list io * outcome R :=
  match p with
  | Ret r => (w, [], Returned r)
  | Throw e => (w, [], Threw e)
  | Run messages depth k =>
      let (w1, a) := on_run H messages depth w in
      match a with
      | Resolved r =>
          let '(w2, t, o) := exec (k r) w1 in (w2, IoRun messages a :: t, o)
      | Rejected e => (w1, [IoRun messages a], Threw e)
      | Pending => (w1, [IoRun messages a], Blocked)
      end
  | BeginRpc subtopic depth k =>
      let (w1, a) := on_beginRpc H subtopic depth w in
      match a with
      | Resolved h =>
          let '(w2, t, o) := exec (k h) w1 in
          (w2, IoBeginRpc subtopic depth a :: t, o)
      | Rejected e => (w1, [IoBeginRpc subtopic depth a], Threw e)
      | Pending => (w1, [IoBeginRpc subtopic depth a], Blocked)
      end
  | Await h k =>
      let (w1, a) := on_await H h w in
      match a with
      | Resolved s =>
          let '(w2, t, o) := exec (k s) w1 in (w2, IoAwait h a :: t, o)
      | Rejected e => (w1, [IoAwait h a], Threw e)
      | Pending => (w1, [IoAwait h a], Blocked)
      end
  end.

End Exec.

(** ** The agent *)

Section Research.

(** The expression elided in [const subtopic = ...;]: the subtopic string
    read from the tool call. *)
Variable subtopic_of : value -> string.

Local Open Scope gen_scope.

(** [for (const tool_call of response.tool_calls) { ... }] *)
Fixpoint fan_out (depth : number) (tcs : list value)
         (handles : list (value * handle))
  : gen (list (value * handle)) :=
  match tcs with
  | [] => Ret handles
  | tc :: rest =>
      BeginRpc (subtopic_of tc) (minus depth one)
               (fun h => fan_out depth rest (handles ++ [(tc, h)]))
  end.

(** [for (const [tool_call, handle] of handles) { ... }] *)
Fixpoint fan_in (handles : list (value * handle))
         (messages : list message) : gen (list message) :=
  match handles with
  | [] => Ret messages
  | (tc, h) :: rest =>
      Await h (fun result => fan_in rest (messages ++ [tool_message tc result]))
  end.

(** One turn of [while (true)]: [inl messages] goes round again,
    [inr result] is [return result]. *)
Definition research_body (depth : number) (messages : list message)
  : gen (list message + value) :=
  Run messages depth (fun response =>
    let messages := messages ++ [Assistant response] in
    match get "tool_calls" response with
    | inl e => Throw e
    | inr calls =>
        if truthy calls then
          match iterate calls with
          | inl e => Throw e
          | inr tcs =>
              handles <- fan_out depth tcs [] ;;
              messages <- fan_in handles messages ;;
              Ret (inl messages)
          end
        else
          match get "content" response with
          | inl e => Throw e
          | inr content => Ret (inr content)
          end
    end).

Section Loop.
Context {W : Type} (H : handler W).

(** [while (true)], for at most [fuel] turns; [None] when the fuel is gone
    before the generator ended. *)
Fixpoint research_loop (fuel : nat) (depth : number) (messages : list message)
         (w : W) : W * list io * option (outcome value) :=
  match fuel with
  | O => (w, [], None)
  | S fuel' =>
      let '(w1, t1, o1) := exec H (research_body depth messages) w in
      match o1 with
      | Returned (inl messages') =>
          let '(w2, t2, o2) := research_loop fuel' depth messages' w1 in
          (w2, t1 ++ t2, o2)
      | Returned (inr result) => (w1, t1, Some (Returned result))
      | Threw e => (w1, t1, Some (Threw e))
      | Blocked => (w1, t1, Some Blocked)
      end
  end.

Definition research (fuel : nat) (topic : string) (depth : number) (w : W)
  : W * list io * option (outcome value) :=
  research_loop fuel depth (initial_messages topic) w.

End Loop.

End Research.

(** ** The substrate *)

(** The environment of one invocation: the oracle behind [prompt], how each
    child invocation ends, and when.  Within one invocation every
    consultation sees a longer history than the one before, so a function of
    the history describes any sequence of oracle answers.
    [child h subtopic depth] is how the invocation [research(subtopic, depth)]
    begun under handle [h] ends. *)
Record world : Type := mk_world {
  prompt : list message -> number -> reply value;
  child : handle -> string -> number -> reply value;
  finish : handle -> nat   (* the time at which the child behind a handle settles *)
}.

(** The substrate's bookkeeping for one invocation: the children begun so
    far (a handle is an index in this list), the clock, and how many times
    [prompt] was really executed. *)
Record substrate : Type := mk_substrate {
  spawned : list (string * number);
  now : nat;
  prompts : nat
}.

Definition boot : substrate := mk_substrate [] 0 0.

(** The substrate at work on [ctx]: [ctx.run] executes [prompt] once;
    [ctx.beginRpc] always grants a fresh handle; awaiting a handle waits
    until its child has settled (the clock moves to the child's finishing
    time unless it is already later) and then gives the child's result or
    throws its exception. *)
Definition live (e : world) : handler substrate :=
  {| on_run := fun messages depth s =>
       (mk_substrate (spawned s) (now s) (S (prompts s)), prompt e messages depth);
     on_beginRpc := fun subtopic depth s =>
       (mk_substrate (spawned s ++ [(subtopic, depth)]) (now s) (prompts s),
        Resolved (length (spawned s)));
     on_await := fun h s =>
       match nth_error (spawned s) h with
       | Some (subtopic, depth) =>
           match child e h subtopic depth with
           | Pending => (s, Pending)
           | a => (mk_substrate (spawned s) (Nat.max (now s) (finish e h))
                                (prompts s), a)
           end
       | None => (s, Rejected (Exception "unknown handle"))
       end |}.

Definition reply_of_outcome (o : option (outcome value)) : reply value :=
  match o with
  | Some (Returned r) => Resolved r
  | Some (Threw e) => Rejected e
  | Some Blocked => Pending
  | None => Pending
  end.

(** The whole call tree: every child is [research] itself.  [Pending] after
    [fuel] levels means the invocation has not ended within the fuel. *)
Fixpoint research_tree (subtopic_of : value -> string)
         (oracle : list message -> number -> reply value) (finish : handle -> nat)
         (fuel : nat) (topic : string) (depth : number) : reply value :=
  match fuel with
  | O => Pending
  | S fuel' =>
      let e := mk_world oracle
                        (fun _ => research_tree subtopic_of oracle finish fuel')
                        finish in
      reply_of_outcome (snd (research subtopic_of (live e) fuel topic depth boot))
  end.

(** ** Reading traces *)

Definition is_run (x : io) : bool :=
  match x with IoRun _ _ => true | _ => false end.

Definition is_spawn (x : io) : bool :=
  match x with IoBeginRpc _ _ _ => true | _ => false end.

Definition is_await (x : io) : bool :=
  match x with IoAwait _ _ => true | _ => false end.

(** The child invocations requested in a trace, in order. *)
Fixpoint requests (t : list io) : list (string * number) :=
  match t with
  | [] => []
  | IoBeginRpc subtopic depth _ :: t' => (subtopic, depth) :: requests t'
  | _ :: t' => requests t'
  end.

(** The histories the oracle was consulted with, in order. *)
Fixpoint histories (t : list io) : list (list message) :=
  match t with
  | [] => []
  | IoRun messages _ :: t' => messages :: histories t'
  | _ :: t' => histories t'
  end.

(** [ordered awaiting t]: in [t] no spawn follows an await unless a
    consultation comes in between; [awaiting] tells whether an await was
    seen since the last consultation. *)
Fixpoint ordered (awaiting : bool) (t : list io) : bool :=
  match t with
  | [] => true
  | IoRun _ _ :: t' => ordered false t'
  | IoBeginRpc _ _ _ :: t' => negb awaiting && ordered false t'
  | IoAwait _ _ :: t' => ordered true t'
  end.

Definition is_tool (m : message) : bool :=
  match m with Tool _ _ => true | _ => false end.

(** [grows m m']: [m'] is [m] with one assistant entry appended, then tool
    entries only. *)
Definition grows (m m' : list message) : Prop :=
  exists r tools, m' = m ++ Assistant r :: tools /\
                  Forall (fun x => is_tool x = true) tools.

Inductive growing : list (list message) -> Prop :=
| growing_nil : growing []
| growing_one (m : list message) : growing [m]
| growing_cons (m m' : list message) (l : list (list message)) :
    grows m m' -> growing (m' :: l) -> growing (m :: m' :: l).

(** What [ctx.beginRpc] is asked for a tool call. *)
Definition request (subtopic_of : value -> string) (depth : number)
           (tc : value) : string * number :=
  (subtopic_of tc, minus depth one).

(** Handle [snd th] is the child begun for tool call [fst th]. *)
Definition begun (subtopic_of : value -> string) (depth : number) (s : substrate)
           (th : value * handle) : Prop :=
  nth_error (spawned s) (snd th) = Some (subtopic_of (fst th), minus depth one).

(** The handles the substrate gives to the tool calls of a response: fresh
    and consecutive. *)
Definition batch (s : substrate) (tcs : list value) : list (value * handle) :=
  combine tcs (seq (length (spawned s)) (length tcs)).

(** How the child begun for tool call [fst th] under handle [snd th] ends. *)
Definition ends (subtopic_of : value -> string) (e : world) (depth : number)
           (th : value * handle) : reply value :=
  child e (snd th) (subtopic_of (fst th)) (minus depth one).

(** The granted spawns of a batch. *)
Definition spawn_ios (subtopic_of : value -> string) (depth : number)
           (handles : list (value * handle)) : list io :=
  map (fun th => IoBeginRpc (subtopic_of (fst th)) (minus depth one)
                            (Resolved (snd th)))
      handles.

(** The resolved awaits of a batch, and the tool messages they bring. *)
Definition await_ios (handles : list (value * handle)) (results : list value)
  : list io :=
  map (fun hr => IoAwait (snd (fst hr)) (Resolved (snd hr))) (combine handles results).

Definition tool_messages (handles : list (value * handle))
           (results : list value) : list message :=
  map (fun hr => tool_message (fst (fst hr)) (snd hr)) (combine handles results).

Definition lift_turn (o : outcome (list message)) : outcome (list message + value) :=
  match o with
  | Returned m => Returned (inl m)
  | Threw e => Threw e
  | Blocked => Blocked
  end.

(** The handles [ctx.beginRpc] gave in a trace, and the handles that were
    awaited, both in order. *)
Fixpoint granted (t : list io) : list handle :=
  match t with
  | [] => []
  | IoBeginRpc _ _ (Resolved h) :: t' => h :: granted t'
  | _ :: t' => granted t'
  end.

Fixpoint awaited (t : list io) : list handle :=
  match t with
  | [] => []
  | IoAwait h _ :: t' => h :: awaited t'
  | _ :: t' => awaited t'
  end.

(** The tool calls of the responses received in a trace, in order. *)
Fixpoint asked (t : list io) : list value :=
  match t with
  | [] => []
  | IoRun _ (Resolved r) :: t' =>
      match tool_calls r with
      | Some tcs => tcs ++ asked t'
      | None => asked t'
      end
  | _ :: t' => asked t'
  end.

(** [sizes n t]: the size of [messages] at each consultation of [t], for an
    array of [n] entries that gets one entry at each consultation (the
    response) and one at each await that gives a result (the tool message). *)
Fixpoint sizes (n : nat) (t : list io) : list nat :=
  match t with
  | [] => []
  | IoRun _ _ :: t' => n :: sizes (S n) t'
  | IoAwait _ (Resolved _) :: t' => sizes (S n) t'
  | _ :: t' => sizes n t'
  end.


(** ** Scenarios *)

(** A stand-in for the elided expression: the subtopic is the [arguments]
    string of the tool call. *)
Definition topic_of_arguments (tc : value) : string :=
  match tc with
  | Object properties =>
      match lookup "arguments" properties with
      | Text s => s
      | _ => ""
      end
  | _ => ""
  end.

Definition plain (text : string) : value :=
  Object [("role", Text "assistant"); ("content", Text text)].

Definition asks (tcs : list value) : value :=
  Object [("role", Text "assistant"); ("content", Null); ("tool_calls", Array tcs)].

Definition tool_call (id subtopic : string) : value :=
  Object [("id", Text id); ("arguments", Text subtopic)].

Definition id1 : value := tool_call "id1" "X1".
Definition id2 : value := tool_call "id2" "X2".
Definition id3 : value := tool_call "id3" "X3".


(** An oracle that requests decomposition at every consultation, whatever
    the depth. *)
Definition always_asks (_ : list message) (_ : number) : reply value :=
  Resolved (asks [id1]).

(** An oracle whose answers carry an empty [tool_calls] array. *)
Definition asks_nothing (_ : list message) (_ : number) : reply value :=
  Resolved (Object [("role", Text "assistant"); ("content", Text "A");
                    ("tool_calls", Array [])]).

(** Two requests first, a synthesis once both tool results are in. *)
Definition oracle_synthesis (messages : list message) (_ : number) : reply value :=
  match messages with
  | [_; _] => Resolved (asks [id1; id2])
  | [_; _; _; Tool _ (Text a1); Tool _ (Text a2)] =>
      Resolved (plain ("Synthesis(" ++ a1 ++ "," ++ a2 ++ ")"))
  | _ => Rejected (Exception "unexpected history")
  end.

(** The same for the whole call tree: the children are invocations of their
    own, and answer their subtopic at once. *)
Definition oracle_tree (messages : list message) (_ : number) : reply value :=
  match messages with
  | [_; User "Research X"] => Resolved (asks [id1; id2])
  | [_; User "Research X1"] => Resolved (plain "A1")
  | [_; User "Research X2"] => Resolved (plain "A2")
  | [_; _; _; Tool _ (Text a1); Tool _ (Text a2)] =>
      Resolved (plain ("Synthesis(" ++ a1 ++ "," ++ a2 ++ ")"))
  | _ => Rejected (Exception "unexpected history")
  end.

(** A world where every child resolves with "A" at time 0. *)
Definition world_of (oracle : list message -> number -> reply value) : world :=
  mk_world oracle (fun _ _ _ => Resolved (Text "A")) (fun _ => 0).

(** Two children: "X1" resolves to "A1" and "X2" to "A2"; the second child
    finishes before the first. *)
Definition world_synthesis : world :=
  mk_world oracle_synthesis
           (fun _ subtopic _ =>
              if String.eqb subtopic "X1" then Resolved (Text "A1")
              else Resolved (Text "A2"))
           (fun h => 2 - h).

(** A batch of three whose second child fails; the third one has long
    finished when the first one does. *)
Definition world_failing : world :=
  mk_world (fun _ _ => Resolved (asks [id1; id2; id3]))
           (fun _ subtopic _ =>
              if String.eqb subtopic "X2" then Rejected (Exception "OracleFailure")
              else Resolved (Text "A"))
           (fun h => 10 - h).

(** A batch of two whose children both fail: the second one at time 1, the
    first one at time 10. *)
Definition world_two_failures : world :=
  mk_world (fun _ _ => Resolved (asks [id1; id2]))
           (fun _ subtopic _ =>
              if String.eqb subtopic "X1" then Rejected (Exception "late failure")
              else Rejected (Exception "early failure"))
           (fun h => match h with O => 10 | _ => 1 end).

(** A batch of two: the first child never settles, the second one fails at
    time 1. *)
Definition world_stuck : world :=
  mk_world (fun _ _ => Resolved (asks [id1; id2]))
           (fun _ subtopic _ =>
              if String.eqb subtopic "X1" then Pending
              else Rejected (Exception "OracleFailure"))
           (fun _ => 1).

(** An oracle that gives the same response at every consultation. *)
Definition replies (response : value) (_ : list message) (_ : number) : reply value :=
  Resolved response.

(** * Properties *)

(** ** Doubles that are integers *)

Section Doubles.
Local Open Scope Z_scope.
Local Unset Implicit Arguments.

Lemma shl_value (q : positive) (k : Z) :
  0 <= k -> Zpos (shl q k) = Zpos q * 2 ^ k.
Proof.
  destruct k as [| n | n]; cbn [shl]; intros Hk; [lia | | lia].
  induction n as [| n IH] using Pos.peano_ind.
  - cbn [Pos.iter]. lia.
  - rewrite Pos.iter_succ, Pos2Z.inj_xO, IH, Pos2Z.inj_succ, Z.pow_succ_r by lia. lia.
Qed.

Lemma shl_shl (q : positive) (a b : Z) :
  0 <= a -> 0 <= b -> shl (shl q a) b = shl q (a + b).
Proof.
  intros Ha Hb. apply Pos2Z.inj. rewrite !shl_value by lia.
  rewrite Z.pow_add_r by lia. lia.
Qed.

Lemma digits2_pos_bounds (q : positive) :
  2 ^ (Zpos (digits2_pos q) - 1) <= Zpos q < 2 ^ Zpos (digits2_pos q).
Proof.
  induction q as [q IH | q IH |]; cbn [digits2_pos].
  - rewrite Pos2Z.inj_succ, (Pos2Z.inj_xI q).
    replace (Z.succ (Zpos (digits2_pos q)) - 1) with (Z.succ (Zpos (digits2_pos q) - 1)) by lia.
    rewrite !Z.pow_succ_r by lia.
    revert IH. generalize (2 ^ (Zpos (digits2_pos q) - 1)) (2 ^ Zpos (digits2_pos q)). lia.
  - rewrite Pos2Z.inj_succ, (Pos2Z.inj_xO q).
    replace (Z.succ (Zpos (digits2_pos q)) - 1) with (Z.succ (Zpos (digits2_pos q) - 1)) by lia.
    rewrite !Z.pow_succ_r by lia.
    revert IH. generalize (2 ^ (Zpos (digits2_pos q) - 1)) (2 ^ Zpos (digits2_pos q)). lia.
  - cbn. lia.
Qed.

Lemma digits2_pos_unique (q : positive) (d : Z) :
  2 ^ (d - 1) <= Zpos q < 2 ^ d -> 0 < d -> Zpos (digits2_pos q) = d.
Proof.
  intros Hd Hpos. pose proof (digits2_pos_bounds q) as Hq.
  destruct (Z.lt_trichotomy (Zpos (digits2_pos q)) d) as [Hlt | [Heq | Hgt]]; [| exact Heq |].
  - assert (2 ^ Zpos (digits2_pos q) <= 2 ^ (d - 1)) by (apply Z.pow_le_mono_r; lia). lia.
  - assert (2 ^ d <= 2 ^ (Zpos (digits2_pos q) - 1)) by (apply Z.pow_le_mono_r; lia). lia.
Qed.

Lemma digits2_pos_shl (q : positive) (k : Z) :
  0 <= k -> Zpos (digits2_pos (shl q k)) = Zpos (digits2_pos q) + k.
Proof.
  intros Hk. apply digits2_pos_unique; [| lia].
  rewrite shl_value by lia. pose proof (digits2_pos_bounds q) as Hq.
  replace (Zpos (digits2_pos q) + k - 1) with (Zpos (digits2_pos q) - 1 + k) by lia.
  rewrite !Z.pow_add_r by lia.
  assert (0 < 2 ^ k) by (apply Z.pow_pos_nonneg; lia). nia.
Qed.

Lemma iter_pos_iter {A : Type} (f : A -> A) (n : positive) :
  forall x, iter_pos f n x = Pos.iter f x n.
Proof.
  induction n as [n IH | n IH |]; intros x; simpl.
  - rewrite !IH, <- !Pos.iter_swap. reflexivity.
  - rewrite !IH. reflexivity.
  - reflexivity.
Qed.

(** Shifting right what was shifted left loses nothing. *)
Lemma shr_shl (q : positive) (n : positive) :
  iter_pos shr_1 n {| shr_m := Zpos (Pos.iter xO q n); shr_r := false; shr_s := false |} =
  {| shr_m := Zpos q; shr_r := false; shr_s := false |}.
Proof.
  rewrite iter_pos_iter. induction n as [| n IH] using Pos.peano_ind.
  - reflexivity.
  - rewrite Pos.iter_succ_r, Pos.iter_succ. simpl. exact IH.
Qed.

(** A mantissa of 53 digits with an exponent in range is left as it is. *)
Lemma round_canonical (s : bool) (m : positive) (e : Z) :
  Zpos (digits2_pos m) = 53 -> -1074 <= e <= 971 ->
  binary_round_aux 53 1024 s (Zpos m) e loc_Exact = S754_finite s m e.
Proof.
  intros Hd He. unfold binary_round_aux, shr_fexp, fexp, emin. cbn [Zdigits2 shr_record_of_loc].
  rewrite Hd. replace (Z.max (53 + e - 53) (3 - 1024 - 53) - e) with 0 by lia.
  cbn [shr shr_m loc_of_shr_record round_nearest_even Zdigits2 shr_record_of_loc].
  rewrite Hd. replace (Z.max (53 + e - 53) (3 - 1024 - 53) - e) with 0 by lia.
  cbn [shr shr_m]. replace (e <=? 1024 - 53) with true by (symmetry; apply Z.leb_le; lia).
  reflexivity.
Qed.

(** Rounding [q * 2 ^ k] with exponent [- k], for [q] of at most 53 digits:
    the value is [q], and its double has the mantissa [q] shifted to 53
    digits. *)
Lemma round_integer (s : bool) (q : positive) (k : Z) :
  Zpos (digits2_pos q) <= 53 -> 0 <= k <= 1000 ->
  binary_round 53 1024 s (shl q k) (- k) =
  S754_finite s (shl q (53 - Zpos (digits2_pos q))) (Zpos (digits2_pos q) - 53).
Proof.
  intros Hd Hk. set (d := Zpos (digits2_pos q)) in *.
  assert (Hd1 : 1 <= d) by (unfold d; lia).
  unfold binary_round, shl_align, fexp, emin.
  rewrite digits2_pos_shl by lia. fold d.
  replace (Z.max (d + k + - k - 53) (3 - 1024 - 53) - - k) with (d - 53 + k) by lia.
  replace (Z.max (d + k + - k - 53) (3 - 1024 - 53)) with (d - 53) by lia.
  destruct (d - 53 + k) as [| n | n] eqn:En.
  - replace (53 - d) with k by lia. replace (d - 53) with (- k) by lia.
    apply round_canonical; [rewrite digits2_pos_shl by lia; fold d; lia | lia].
  - unfold binary_round_aux, shr_fexp, fexp, emin. cbn [Zdigits2 shr_record_of_loc].
    rewrite digits2_pos_shl by lia. fold d.
    replace (Z.max (d + k + - k - 53) (3 - 1024 - 53) - - k) with (Zpos n) by lia.
    cbn [shr].
    replace (shl q k) with (Pos.iter xO (shl q (53 - d)) n).
    2:{ change (Pos.iter xO (shl q (53 - d)) n) with (shl (shl q (53 - d)) (Zpos n)).
        rewrite shl_shl by lia. f_equal. lia. }
    rewrite shr_shl. cbn [shr_m loc_of_shr_record round_nearest_even Zdigits2 shr_record_of_loc].
    rewrite digits2_pos_shl by lia. fold d.
    replace (Z.max (d + (53 - d) + (- k + Zpos n) - 53) (3 - 1024 - 53) - (- k + Zpos n))
      with 0 by lia.
    cbn [shr shr_m].
    replace (- k + Zpos n <=? 1024 - 53) with true by (symmetry; apply Z.leb_le; lia).
    f_equal. lia.
  - change (Pos.iter xO (shl q k) n) with (shl (shl q k) (Zpos n)).
    rewrite shl_shl by lia. replace (k + Zpos n) with (53 - d) by lia.
    apply round_canonical; [rewrite digits2_pos_shl by lia; fold d; lia | lia].
Qed.

Lemma digits2_pos_small (q : positive) :
  Zpos q < 2 ^ 53 -> Zpos (digits2_pos q) <= 53.
Proof.
  intros Hq. pose proof (digits2_pos_bounds q) as Hb.
  destruct (Z.le_gt_cases (Zpos (digits2_pos q)) 53) as [Hle | Hgt]; [exact Hle |].
  assert (2 ^ 53 <= 2 ^ (Zpos (digits2_pos q) - 1)) by (apply Z.pow_le_mono_r; lia). lia.
Qed.

(** The double of a positive integer below 2^53. *)
Lemma of_Z_pos (q : positive) :
  Zpos q < 2 ^ 53 ->
  of_Z (Zpos q) =
  S754_finite false (shl q (53 - Zpos (digits2_pos q))) (Zpos (digits2_pos q) - 53).
Proof.
  intros Hq. unfold of_Z, binary_normalize.
  exact (round_integer false q 0 (digits2_pos_small q Hq) ltac:(lia)).
Qed.

(** Integers up to 2^53 are doubles. *)
Lemma integer_of_Z (z : Z) : 0 <= z <= 2 ^ 53 -> integer (of_Z z) = Some z.
Proof.
  intros Hz. destruct (Z.eq_dec z (2 ^ 53)) as [-> | Hne]; [reflexivity |].
  destruct z as [| q | q]; [reflexivity | | lia].
  rewrite of_Z_pos by lia. pose proof (digits2_pos_small q ltac:(lia)) as Hd.
  set (d := Zpos (digits2_pos q)) in *. unfold integer.
  assert (Hd1 : 1 <= d) by (unfold d; lia).
  destruct (0 <=? d - 53) eqn:E.
  - apply Z.leb_le in E. replace (53 - d) with 0 by lia. replace (d - 53) with 0 by lia.
    simpl. f_equal. lia.
  - rewrite shl_value by lia. replace (- (d - 53)) with (53 - d) by lia.
    rewrite Z_mod_mult, Z_div_mult; [reflexivity |].
    apply Z.lt_gt, Z.pow_pos_nonneg; lia.
Qed.

(** Below 2^53 the subtraction [depth - 1] is exact. *)
Lemma minus_one_exact (z : Z) :
  0 < z <= 2 ^ 53 -> minus (of_Z z) one = of_Z (z - 1).
Proof.
  intros Hz. destruct (Z.eq_dec z (2 ^ 53)) as [-> | Hne]; [reflexivity |].
  destruct z as [| q | q]; [lia | | lia].
  rewrite of_Z_pos by lia. pose proof (digits2_pos_small q ltac:(lia)) as Hd.
  set (d := Zpos (digits2_pos q)) in *.
  assert (Hd1 : 1 <= d) by (unfold d; lia).
  change one with (S754_finite false (shl 1 52) (-52)).
  unfold minus, SFsub. replace (Z.min (d - 53) (-52)) with (-52) by lia.
  assert (Ex : fst (shl_align (shl q (53 - d)) (d - 53) (-52)) = shl q 52).
  { unfold shl_align. destruct (-52 - (d - 53)) as [| n | n] eqn:En; cbn [fst].
    - f_equal. lia.
    - lia.
    - change (Pos.iter xO (shl q (53 - d)) n) with (shl (shl q (53 - d)) (Zpos n)).
      rewrite shl_shl by lia. f_equal. lia. }
  rewrite Ex. change (fst (shl_align (shl 1 52) (-52) (-52))) with (shl 1 52).
  cbn [cond_Zopp]. rewrite !shl_value by lia.
  destruct (Z.eq_dec (Zpos q) 1) as [E1 | N1].
  - rewrite E1. reflexivity.
  - assert (Hq : exists p, Zpos q - 1 = Zpos p).
    { destruct (Zpos q - 1) as [| p | p] eqn:Ep; [lia | eauto | lia]. }
    destruct Hq as (p & Ep). rewrite Ep.
    replace (Zpos q * 2 ^ 52 - 1 * 2 ^ 52) with (Zpos (shl p 52))
      by (rewrite shl_value by lia; lia).
    unfold binary_normalize. change (-52) with (- 52).
    rewrite round_integer; [| apply digits2_pos_small; lia | lia].
    symmetry. apply of_Z_pos. lia.
Qed.

End Doubles.

(** ** Running generators *)

Section ExecFacts.
Context {W : Type} (H : handler W).

(** Running [m] and then [f]: the traces follow one another, and an
    exception or a block in [m] ends the run there. *)
Lemma exec_bind {A B : Type} (m : gen A) (f : A -> gen B) (w : W) :
  exec H (bind m f) w =
  let '(w1, t1, o1) := exec H m w in
  match o1 with
  | Returned a => let '(w2, t2, o2) := exec H (f a) w1 in (w2, t1 ++ t2, o2)
  | Threw e => (w1, t1, Threw e)
  | Blocked => (w1, t1, Blocked)
  end.
Proof.
  revert w. induction m as [a | err | ms dp k IH | st d k IH | h k IH]; intros w; simpl.
  - destruct (exec H (f a) w) as [[w2 t2] o2]. reflexivity.
  - reflexivity.
  - destruct (on_run H ms dp w) as [w1 [r | e |]]; try reflexivity.
    rewrite IH. destruct (exec H (k r) w1) as [[w2 t2] [a | e |]]; try reflexivity.
    destruct (exec H (f a) w2) as [[w3 t3] o3]. reflexivity.
  - destruct (on_beginRpc H st d w) as [w1 [r | e |]]; try reflexivity.
    rewrite IH. destruct (exec H (k r) w1) as [[w2 t2] [a | e |]]; try reflexivity.
    destruct (exec H (f a) w2) as [[w3 t3] o3]. reflexivity.
  - destruct (on_await H h w) as [w1 [r | e |]]; try reflexivity.
    rewrite IH. destruct (exec H (k r) w1) as [[w2 t2] [a | e |]]; try reflexivity.
    destruct (exec H (f a) w2) as [[w3 t3] o3]. reflexivity.
Qed.

End ExecFacts.

(** ** The shape of the interaction *)

Lemma requests_app (t1 t2 : list io) :
  requests (t1 ++ t2) = requests t1 ++ requests t2.
Proof.
  induction t1 as [| [ms a | st d a | h a] t1 IH]; simpl; congruence.
Qed.

Lemma histories_app (t1 t2 : list io) :
  histories (t1 ++ t2) = histories t1 ++ histories t2.
Proof.
  induction t1 as [| [ms a | st d a | h a] t1 IH]; simpl; congruence.
Qed.

Lemma requests_awaits (t : list io) :
  Forall (fun x => is_await x = true) t -> requests t = [].
Proof.
  induction 1 as [| [ms a | st d a | h a] t Hx Ht IH]; simpl; auto; discriminate.
Qed.

Lemma histories_no_run (t : list io) :
  Forall (fun x => is_run x = false) t -> histories t = [].
Proof.
  induction 1 as [| [ms a | st d a | h a] t Hx Ht IH]; simpl; auto; discriminate.
Qed.

Section BodyFacts.
Variable subtopic_of : value -> string.
Context {W : Type} (H : handler W).

(** One turn of the loop, effect by effect. *)
Lemma exec_body (depth : number) (messages : list message) (w : W) :
  exec H (research_body subtopic_of depth messages) w =
  let (w1, a) := on_run H messages depth w in
  match a with
  | Resolved r =>
      match get "tool_calls" r with
      | inl e => (w1, [IoRun messages a], Threw e)
      | inr calls =>
          if truthy calls then
            match iterate calls with
            | inl e => (w1, [IoRun messages a], Threw e)
            | inr tcs =>
                let '(w2, t2, o2) := exec H (fan_out subtopic_of depth tcs []) w1 in
                match o2 with
                | Returned handles =>
                    let '(w3, t3, o3) :=
                      exec H (fan_in handles (messages ++ [Assistant r])) w2 in
                    (w3, IoRun messages a :: t2 ++ t3, lift_turn o3)
                | Threw e => (w2, IoRun messages a :: t2, Threw e)
                | Blocked => (w2, IoRun messages a :: t2, Blocked)
                end
            end
          else
            match get "content" r with
            | inl e => (w1, [IoRun messages a], Threw e)
            | inr content =>
                (w1, [IoRun messages a], Returned (inr content))
            end
      end
  | Rejected e => (w1, [IoRun messages a], Threw e)
  | Pending => (w1, [IoRun messages a], Blocked)
  end.
Proof.
  unfold research_body. simpl.
  destruct (on_run H messages depth w) as [w1 [r | e |]];
    try reflexivity.
  destruct (get "tool_calls" r) as [e | calls]; [reflexivity |].
  destruct (truthy calls); [| destruct (get "content" r); reflexivity].
  destruct (iterate calls) as [e | tcs]; [reflexivity |].
  rewrite exec_bind.
  destruct (exec H (fan_out subtopic_of depth tcs []) w1) as [[w2 t2] [hs | e |]];
    try reflexivity.
  rewrite exec_bind.
  destruct (exec H (fan_in hs (messages ++ [Assistant r])) w2) as [[w3 t3] [m | e |]];
    simpl; try reflexivity.
  rewrite app_nil_r. reflexivity.
Qed.

(** [tool_calls] reads what the turn branches on. *)
Lemma tool_calls_some (r : value) (tcs : list value) :
  tool_calls r = Some tcs <->
  exists calls, get "tool_calls" r = inr calls /\ truthy calls = true /\
                iterate calls = inr tcs.
Proof.
  unfold tool_calls. split.
  - destruct (get "tool_calls" r) as [e | calls]; [discriminate |].
    destruct (truthy calls) eqn:Et; [| discriminate].
    destruct (iterate calls) as [e | tcs'] eqn:Ei; [discriminate |].
    intros E; inversion E; subst. exists calls. auto.
  - intros (calls & -> & -> & ->). reflexivity.
Qed.

(** The turn of a response that carries tool calls. *)
Lemma exec_body_calls (depth : number) (messages : list message) (w w1 : W)
      (r : value) (tcs : list value) :
  on_run H messages depth w = (w1, Resolved r) ->
  tool_calls r = Some tcs ->
  exec H (research_body subtopic_of depth messages) w =
  let '(w2, t2, o2) := exec H (fan_out subtopic_of depth tcs []) w1 in
  match o2 with
  | Returned handles =>
      let '(w3, t3, o3) := exec H (fan_in handles (messages ++ [Assistant r])) w2 in
      (w3, IoRun messages (Resolved r) :: t2 ++ t3, lift_turn o3)
  | Threw e => (w2, IoRun messages (Resolved r) :: t2, Threw e)
  | Blocked => (w2, IoRun messages (Resolved r) :: t2, Blocked)
  end.
Proof.
  intros E Etc. apply tool_calls_some in Etc. destruct Etc as (calls & Eg & Et & Ei).
  rewrite exec_body, E, Eg, Et, Ei. reflexivity.
Qed.

(** The turn of a response that carries none ends the run at once: it
    returns, or throws where the response cannot be read or its
    [tool_calls] cannot be iterated. *)
Lemma exec_body_no_calls (depth : number) (messages : list message) (w w1 : W)
      (r : value) :
  on_run H messages depth w = (w1, Resolved r) ->
  tool_calls r = None ->
  exists o,
    exec H (research_body subtopic_of depth messages) w =
    (w1, [IoRun messages (Resolved r)], o) /\
    (forall m, o <> Returned (inl m)) /\ o <> Blocked.
Proof.
  intros E Etc. rewrite exec_body, E. unfold tool_calls in Etc.
  destruct (get "tool_calls" r) as [e | calls];
    [eexists; split; [reflexivity | split; [intros m |]; discriminate] |].
  destruct (truthy calls).
  - destruct (iterate calls) as [e | tcs]; [| discriminate].
    eexists; split; [reflexivity | split; [intros m |]; discriminate].
  - destruct (get "content" r) as [e | c];
      eexists; (split; [reflexivity | split; [intros m |]; discriminate]).
Qed.

(** Fan-out yields spawns only: one per tool call, in order, each with
    [depth - 1], up to the first spawn the substrate does not grant. *)
Lemma fan_out_trace (depth : number) (tcs : list value) :
  forall (acc : list (value * handle)) (w : W),
    let '(_, t, o) := exec H (fan_out subtopic_of depth tcs acc) w in
    Forall (fun x => is_spawn x = true) t /\
    (exists k, requests t =
               map (fun tc => (subtopic_of tc, minus depth one)) (firstn k tcs)) /\
    (forall handles, o = Returned handles ->
       exists new, handles = acc ++ new /\ map fst new = tcs /\
                   t = spawn_ios subtopic_of depth new).
Proof.
  induction tcs as [| tc rest IH]; intros acc w; simpl.
  - split; [constructor |]. split; [exists 0%nat; reflexivity |].
    intros handles E. inversion E; subst. exists []. rewrite app_nil_r. auto.
  - destruct (on_beginRpc H (subtopic_of tc) (minus depth one) w) as [w1 [h | e |]].
    + specialize (IH (acc ++ [(tc, h)]) w1).
      destruct (exec H (fan_out subtopic_of depth rest (acc ++ [(tc, h)])) w1)
        as [[w2 t] o].
      destruct IH as (Hs & (k & Hk) & Hr). split; [constructor; auto |]. split.
      * exists (S k). simpl. rewrite Hk. reflexivity.
      * intros handles E. destruct (Hr handles E) as (new & -> & Hm & ->).
        exists ((tc, h) :: new). rewrite <- app_assoc. simpl.
        rewrite Hm. auto.
    + split; [repeat constructor |]. split; [exists 1%nat; reflexivity |].
      intros handles E; discriminate.
    + split; [repeat constructor |]. split; [exists 1%nat; reflexivity |].
      intros handles E; discriminate.
Qed.

(** Fan-in yields awaits only, and appends one tool message per handle, in
    the order of [handles]. *)
Lemma fan_in_trace (handles : list (value * handle)) :
  forall (messages : list message) (w : W),
    let '(_, t, o) := exec H (fan_in handles messages) w in
    Forall (fun x => is_await x = true) t /\
    (forall messages', o = Returned messages' ->
       exists results, length results = length handles /\
                       messages' = messages ++ tool_messages handles results /\
                       t = await_ios handles results).
Proof.
  induction handles as [| [tc h] rest IH]; intros messages w; simpl.
  - split; [constructor |]. intros m' E; inversion E; subst.
    exists []. rewrite app_nil_r. auto.
  - destruct (on_await H h w) as [w1 [r | e |]].
    + specialize (IH (messages ++ [tool_message tc r]) w1).
      destruct (exec H (fan_in rest (messages ++ [tool_message tc r])) w1)
        as [[w2 t] o].
      destruct IH as (Ha & Hr). split; [constructor; auto |].
      intros m' E. destruct (Hr m' E) as (rs & Hl & -> & ->).
      exists (r :: rs). simpl. rewrite Hl, <- app_assoc. auto.
    + split; [repeat constructor |]. intros m' E; discriminate.
    + split; [repeat constructor |]. intros m' E; discriminate.
Qed.

End BodyFacts.

(** ** The live substrate *)

Section LiveFacts.
Variable subtopic_of : value -> string.
Variable e : world.

(** The substrate grants every spawn: the whole batch is begun, with fresh
    consecutive handles. *)
Lemma live_fan_out (depth : number) (tcs : list value) :
  forall (acc : list (value * handle)) (s : substrate),
    exec (live e) (fan_out subtopic_of depth tcs acc) s =
    (mk_substrate (spawned s ++ map (request subtopic_of depth) tcs) (now s) (prompts s),
     spawn_ios subtopic_of depth
               (combine tcs (seq (length (spawned s)) (length tcs))),
     Returned (acc ++ combine tcs (seq (length (spawned s)) (length tcs)))).
Proof.
  induction tcs as [| tc rest IH]; intros acc s; simpl.
  - rewrite !app_nil_r. destruct s; reflexivity.
  - rewrite IH. simpl. rewrite length_app. simpl.
    rewrite Nat.add_1_r, <- !app_assoc. reflexivity.
Qed.

(** After the fan-out, every handle of the batch stands for the child begun
    for its tool call. *)
Lemma begun_batch (depth : number) (tcs : list value) :
  forall (old : list (string * number)) (n p : nat),
    Forall (begun subtopic_of depth (mk_substrate (old ++ map (request subtopic_of depth) tcs) n p))
           (combine tcs (seq (length old) (length tcs))).
Proof.
  induction tcs as [| tc rest IH]; intros old n p; simpl; constructor.
  - unfold begun. simpl. rewrite nth_error_app2 by lia.
    rewrite Nat.sub_diag. reflexivity.
  - specialize (IH (old ++ [request subtopic_of depth tc]) n p).
    rewrite length_app, Nat.add_1_r, <- app_assoc in IH. exact IH.
Qed.

(** Every child of the batch resolves: fan-in appends their results in the
    order of [handles], whatever the finishing times. *)
Lemma live_fan_in_resolved (depth : number) (handles : list (value * handle)) :
  forall (results : list value) (messages : list message) (s : substrate),
    Forall (begun subtopic_of depth s) handles ->
    Forall2 (fun th r => ends subtopic_of e depth th = Resolved r)
            handles results ->
    exists s',
      exec (live e) (fan_in handles messages) s =
      (s', await_ios handles results,
       Returned (messages ++ tool_messages handles results)) /\
      spawned s' = spawned s /\ prompts s' = prompts s.
Proof.
  induction handles as [| [tc h] rest IH]; intros results messages s Hb Hc.
  - inversion Hc; subst. exists s. simpl. rewrite app_nil_r. auto.
  - inversion Hc as [| th r rest' rs Hr Hrs]; subst.
    inversion Hb as [| th' rest' Hh Hrest]; subst.
    simpl. unfold begun in Hh. unfold ends in Hr. simpl in Hh, Hr.
    rewrite Hh, Hr.
    set (s1 := mk_substrate (spawned s) (Nat.max (now s) (finish e h)) (prompts s)).
    destruct (IH rs (messages ++ [tool_message tc r]) s1) as (s' & E & Hs & Hp); auto.
    exists s'. rewrite E. unfold await_ios, tool_messages. simpl.
    rewrite <- app_assoc. auto.
Qed.

(** The children before [th] resolve and the child of [th] fails: the
    exception of that child leaves the generator at its await. *)
Lemma live_fan_in_rejected (depth : number) (pre : list (value * handle)) :
  forall (results : list value) (th : value * handle)
         (post : list (value * handle)) (err : error)
         (messages : list message) (s : substrate),
    Forall (begun subtopic_of depth s) (pre ++ [th]) ->
    Forall2 (fun th r => ends subtopic_of e depth th = Resolved r)
            pre results ->
    ends subtopic_of e depth th = Rejected err ->
    exists s',
      exec (live e) (fan_in (pre ++ th :: post) messages) s =
      (s', await_ios pre results ++ [IoAwait (snd th) (Rejected err)], Threw err) /\
      spawned s' = spawned s /\ prompts s' = prompts s.
Proof.
  induction pre as [| [tc h] rest IH];
    intros results th post err messages s Hb Hc He.
  - inversion Hc; subst. inversion Hb as [| th' rest' Hh Hrest]; subst.
    destruct th as [tc h]. simpl. unfold begun in Hh. unfold ends in He. simpl in Hh, He.
    rewrite Hh, He. eexists. split; [reflexivity |]. auto.
  - inversion Hc as [| th0 r rest' rs Hr Hrs]; subst.
    inversion Hb as [| th' rest' Hh Hrest]; subst.
    simpl. unfold begun in Hh. unfold ends in Hr. simpl in Hh, Hr.
    rewrite Hh, Hr.
    set (s1 := mk_substrate (spawned s) (Nat.max (now s) (finish e h)) (prompts s)).
    destruct (IH rs th post err (messages ++ [tool_message tc r]) s1)
      as (s' & E & Hs & Hp); auto.
    exists s'. rewrite E. unfold await_ios. simpl. auto.
Qed.

End LiveFacts.

(** ** One turn, and the loop *)

Section LoopFacts.
Variable subtopic_of : value -> string.
Context {W : Type} (H : handler W).

(** A turn is a consultation, then spawns, then awaits. *)
Lemma body_shape (depth : number) (messages : list message) (w : W) :
  exists sp aw,
    snd (fst (exec H (research_body subtopic_of depth messages) w)) =
    IoRun messages
          (snd (on_run H messages depth w)) :: sp ++ aw /\
    Forall (fun x => is_spawn x = true) sp /\
    Forall (fun x => is_await x = true) aw.
Proof.
  destruct (on_run H messages depth w) as [w1 [r | e |]] eqn:Er;
    try solve [rewrite exec_body, Er; exists nil, nil; simpl; auto].
  destruct (tool_calls r) as [tcs |] eqn:Etc.
  - rewrite (exec_body_calls subtopic_of H depth messages w Er Etc).
    pose proof (fan_out_trace subtopic_of H depth tcs [] w1) as Ho.
    destruct (exec H (fan_out subtopic_of depth tcs []) w1) as [[w2 t2] o2].
    destruct Ho as (Hs & _ & _).
    destruct o2 as [hs | e |];
      try solve [exists t2, nil; rewrite app_nil_r; simpl; auto].
    pose proof (fan_in_trace H hs (messages ++ [Assistant r]) w2) as Hi.
    destruct (exec H (fan_in hs (messages ++ [Assistant r])) w2) as [[w3 t3] o3].
    destruct Hi as (Ha & _). exists t2, t3. simpl. auto.
  - destruct (exec_body_no_calls subtopic_of H depth messages w Er Etc)
      as (o & -> & _).
    exists nil, nil. simpl. auto.
Qed.

(** A turn that says [return] is a lone consultation answered by a response
    whose [tool_calls] is falsy, and returns its [content]. *)
Lemma body_returns (depth : number) (messages : list message) (w w' : W)
      (t : list io) (result : value) :
  exec H (research_body subtopic_of depth messages) w = (w', t, Returned (inr result)) ->
  exists r calls,
    on_run H messages depth w = (w', Resolved r) /\
    get "tool_calls" r = inr calls /\ truthy calls = false /\
    get "content" r = inr result /\
    t = [IoRun messages (Resolved r)].
Proof.
  rewrite exec_body.
  destruct (on_run H messages depth w) as [w1 [r | e |]];
    try discriminate.
  destruct (get "tool_calls" r) as [e | calls] eqn:Eg; [discriminate |].
  destruct (truthy calls) eqn:Et.
  - destruct (iterate calls) as [e | tcs]; [discriminate |].
    destruct (exec H (fan_out subtopic_of depth tcs []) w1) as [[w2 t2] [hs | e |]];
      try discriminate.
    destruct (exec H (fan_in hs (messages ++ [Assistant r])) w2)
      as [[w3 t3] [m | e |]]; discriminate.
  - destruct (get "content" r) as [e | c] eqn:Ec; [discriminate |].
    intros E; inversion E; subst. exists r, calls. auto.
Qed.

(** A turn that goes round again appended to [messages] the assistant's
    response and one tool message for each awaited child. *)
Lemma body_continues (depth : number) (messages messages' : list message) (w w' : W)
      (t : list io) :
  exec H (research_body subtopic_of depth messages) w = (w', t, Returned (inl messages')) ->
  exists r tcs hs results,
    snd (on_run H messages depth w) = Resolved r /\
    tool_calls r = Some tcs /\
    map fst hs = tcs /\ length results = length hs /\
    t = IoRun messages (Resolved r)
          :: spawn_ios subtopic_of depth hs ++ await_ios hs results /\
    messages' = messages ++ Assistant r :: tool_messages hs results.
Proof.
  destruct (on_run H messages depth w) as [w1 [r | e |]] eqn:Er;
    try solve [rewrite exec_body, Er; discriminate].
  destruct (tool_calls r) as [tcs |] eqn:Etc.
  - rewrite (exec_body_calls subtopic_of H depth messages w Er Etc).
    pose proof (fan_out_trace subtopic_of H depth tcs [] w1) as Ho.
    destruct (exec H (fan_out subtopic_of depth tcs []) w1) as [[w2 t2] [hs | e |]];
      try discriminate.
    destruct Ho as (_ & _ & Ho). destruct (Ho hs eq_refl) as (new & -> & Hm & ->).
    simpl. pose proof (fan_in_trace H new (messages ++ [Assistant r]) w2) as Hi.
    destruct (exec H (fan_in new (messages ++ [Assistant r])) w2)
      as [[w3 t3] [m | e |]]; try discriminate.
    destruct Hi as (_ & Hi). destruct (Hi m eq_refl) as (rs & Hl & -> & ->).
    intros E; inversion E; subst. exists r, (map fst new), new, rs.
    rewrite <- app_assoc. simpl. repeat split; auto.
  - destruct (exec_body_no_calls subtopic_of H depth messages w Er Etc)
      as (o & -> & Hno & _).
    intros E; inversion E; subst. exfalso. exact (Hno messages' eq_refl).
Qed.

(** One turn, then the rest of the loop. *)
Lemma loop_step (fuel : nat) (depth : number) (messages : list message) (w : W) :
  research_loop subtopic_of H (S fuel) depth messages w =
  let '(w1, t1, o1) := exec H (research_body subtopic_of depth messages) w in
  match o1 with
  | Returned (inl messages') =>
      let '(w2, t2, o2) := research_loop subtopic_of H fuel depth messages' w1 in
      (w2, t1 ++ t2, o2)
  | Returned (inr result) => (w1, t1, Some (Returned result))
  | Threw e => (w1, t1, Some (Threw e))
  | Blocked => (w1, t1, Some Blocked)
  end.
Proof. reflexivity. Qed.

(** The generator returns only from a turn whose response has a falsy
    [tool_calls], and returns that response's [content]. *)
Lemma loop_returned (fuel : nat) (depth : number) :
  forall (messages : list message) (w w' : W) (t : list io) (result : value),
    research_loop subtopic_of H fuel depth messages w = (w', t, Some (Returned result)) ->
    exists t0 m r calls,
      t = t0 ++ [IoRun m (Resolved r)] /\
      get "tool_calls" r = inr calls /\ truthy calls = false /\
      get "content" r = inr result.
Proof.
  induction fuel as [| fuel IH]; intros messages w w' t result;
    [simpl; discriminate | rewrite loop_step].
  destruct (exec H (research_body subtopic_of depth messages) w)
    as [[w1 t1] [[m' | res] | e1 |]] eqn:E;
    try discriminate.
  - destruct (research_loop subtopic_of H fuel depth m' w1) as [[w2 t2] o2] eqn:E2.
    intros E'; inversion E'; subst.
    destruct (IH _ _ _ _ _ E2) as (t0 & m & r & calls & -> & Hr).
    exists (t1 ++ t0), m, r, calls. rewrite app_assoc. auto.
  - intros E'; inversion E'; subst.
    destruct (body_returns _ _ _ E) as (r & calls & _ & Hg & Ht & Hc & ->).
    exists [], messages, r, calls. auto.
Qed.

(** The first turn answered with a falsy [tool_calls] ends the loop at
    once. *)
Lemma loop_plain (fuel : nat) (depth : number) (messages : list message) (w w1 : W)
      (r calls result : value) :
  on_run H messages depth w = (w1, Resolved r) ->
  get "tool_calls" r = inr calls ->
  truthy calls = false ->
  get "content" r = inr result ->
  research_loop subtopic_of H (S fuel) depth messages w =
  (w1, [IoRun messages (Resolved r)], Some (Returned result)).
Proof.
  intros E Eg Et Ec. rewrite loop_step, exec_body, E, Eg, Et, Ec. reflexivity.
Qed.

(** A response that can be read has a [content]. *)
Lemma get_content (r calls : value) :
  get "tool_calls" r = inr calls -> exists c, get "content" r = inr c.
Proof.
  destruct r; simpl; try discriminate; eauto.
Qed.

End LoopFacts.

(** ** A turn against the live substrate *)

Lemma combine_fst_seq {A : Type} (l : list A) (base : nat) :
  map fst (combine l (seq base (length l))) = l.
Proof.
  revert base. induction l as [| a l IH]; intros base; simpl; [| rewrite IH];
    reflexivity.
Qed.

Lemma tool_messages_combine (tcs : list value) :
  forall (hs : list handle) (results : list value),
    length hs = length tcs ->
    tool_messages (combine tcs hs) results =
    map (fun p => Tool (identifier (fst p)) (snd p)) (combine tcs results).
Proof.
  unfold tool_messages.
  induction tcs as [| tc tcs IH]; intros [| h hs] results Hl; try discriminate;
    [reflexivity |].
  destruct results as [| r results]; [reflexivity |]. simpl.
  rewrite IH by (simpl in Hl; lia). reflexivity.
Qed.

Section LiveTurn.
Variable subtopic_of : value -> string.
Variable e : world.

Lemma requests_spawn_ios (depth : number) (handles : list (value * handle)) :
  requests (spawn_ios subtopic_of depth handles) =
  map (request subtopic_of depth) (map fst handles).
Proof.
  induction handles as [| [tc h] rest IH]; simpl; [| rewrite IH]; reflexivity.
Qed.

(** If fan-in returned, every child of the batch had resolved, and the
    appended tool messages hold their results in the order of [handles]. *)
Lemma live_fan_in_returned (depth : number) (handles : list (value * handle)) :
  forall (messages messages' : list message) (s s' : substrate) (t : list io),
    Forall (begun subtopic_of depth s) handles ->
    exec (live e) (fan_in handles messages) s = (s', t, Returned messages') ->
    exists results,
      Forall2 (fun th r => ends subtopic_of e depth th = Resolved r)
              handles results /\
      messages' = messages ++ tool_messages handles results.
Proof.
  induction handles as [| [tc h] rest IH]; intros messages messages' s s' t Hb.
  - simpl. intros E; inversion E; subst. exists []. rewrite app_nil_r. auto.
  - inversion Hb as [| th' rest' Hh Hrest]; subst.
    simpl. unfold begun in Hh. simpl in Hh. rewrite Hh.
    destruct (child e h (subtopic_of tc) (minus depth one)) as [r | err |] eqn:Ec;
      try discriminate.
    set (s1 := mk_substrate (spawned s) (Nat.max (now s) (finish e h)) (prompts s)).
    destruct (exec (live e) (fan_in rest (messages ++ [tool_message tc r])) s1)
      as [[s2 t2] o2] eqn:E2.
    intros E; inversion E; subst.
    destruct (IH _ _ s1 _ _ Hrest E2) as (rs & Hf & ->).
    exists (r :: rs). split; [constructor; [exact Ec | exact Hf] |].
    unfold tool_messages. simpl. rewrite <- app_assoc. reflexivity.
Qed.

(** The first part of a decomposing turn: the consultation, then every
    tool call's child begun, whatever happens at the awaits. *)
Lemma live_turn (depth : number) (messages : list message) (s : substrate)
      (r : value) (tcs : list value) :
  prompt e messages depth = Resolved r ->
  tool_calls r = Some tcs ->
  let s1 := mk_substrate (spawned s ++ map (request subtopic_of depth) tcs)
                         (now s) (S (prompts s)) in
  let handles := batch s tcs in
  Forall (begun subtopic_of depth s1) handles /\
  exec (live e) (research_body subtopic_of depth messages) s =
  let '(s2, t2, o2) := exec (live e) (fan_in handles (messages ++ [Assistant r])) s1 in
  (s2, IoRun messages (Resolved r)
         :: spawn_ios subtopic_of depth handles ++ t2,
   lift_turn o2).
Proof.
  intros Ep Etc s1 handles. split.
  - apply begun_batch.
  - rewrite (@exec_body_calls subtopic_of substrate (live e) depth messages s
               (mk_substrate (spawned s) (now s) (S (prompts s))) r tcs);
      [| simpl; rewrite Ep; reflexivity | exact Etc].
    rewrite live_fan_out. reflexivity.
Qed.

(** The children requested in a decomposing turn: one per tool call, in
    order, each with [depth - 1]. *)
Lemma live_turn_requests (depth : number) (messages : list message) (s : substrate)
      (r : value) (tcs : list value) :
  prompt e messages depth = Resolved r ->
  tool_calls r = Some tcs ->
  requests (snd (fst (exec (live e) (research_body subtopic_of depth messages) s))) =
  map (request subtopic_of depth) tcs.
Proof.
  intros Ep Etc. destruct (live_turn depth messages s Ep Etc) as (_ & ->).
  set (s1 := mk_substrate _ _ _). set (hs := batch _ _).
  pose proof (fan_in_trace (live e) hs (messages ++ [Assistant r]) s1) as Hi.
  destruct (exec (live e) (fan_in hs (messages ++ [Assistant r])) s1)
    as [[s2 t2] o2].
  destruct Hi as (Ha & _). simpl.
  rewrite requests_app, requests_spawn_ios, (requests_awaits Ha), app_nil_r.
  unfold hs, batch. rewrite combine_fst_seq. reflexivity.
Qed.

End LiveTurn.

(** ** Failing children *)

Lemma histories_awaits (t : list io) :
  Forall (fun x => is_await x = true) t -> histories t = [].
Proof.
  intros Ha. apply histories_no_run.
  eapply Forall_impl; [| exact Ha]. intros [ms a | st d a | h a]; simpl; congruence.
Qed.

Lemma histories_spawn_ios (subtopic_of : value -> string) (depth : number)
      (handles : list (value * handle)) :
  histories (spawn_ios subtopic_of depth handles) = [].
Proof.
  induction handles as [| th rest IH]; simpl; auto.
Qed.

Section LiveFailure.
Variable subtopic_of : value -> string.
Variable e : world.

(** All children of the batch settle and one of them fails: the first one
    that fails, in the order of [handles], ends the generator with its
    exception. *)
Lemma live_fan_in_fails (depth : number) (handles : list (value * handle)) :
  forall (messages : list message) (s : substrate),
    Forall (begun subtopic_of depth s) handles ->
    (forall th, In th handles ->
                ends subtopic_of e depth th <> Pending) ->
    (exists th err, In th handles /\
                    ends subtopic_of e depth th = Rejected err) ->
    exists pre th post err,
      handles = pre ++ th :: post /\
      (forall th', In th' pre ->
                   exists res, ends subtopic_of e depth th' = Resolved res) /\
      ends subtopic_of e depth th = Rejected err /\
      exists s' t,
        exec (live e) (fan_in handles messages) s = (s', t, Threw err) /\
        prompts s' = prompts s /\
        Forall (fun x => is_await x = true) t.
Proof.
  induction handles as [| [tc h] rest IH]; intros messages s Hb Hs Hf.
  - destruct Hf as (th & err & [] & _).
  - inversion Hb as [| th' rest' Hh Hrest]; subst.
    destruct (child e h (subtopic_of tc) (minus depth one)) as [r | err |] eqn:Ec.
    + set (s1 := mk_substrate (spawned s) (Nat.max (now s) (finish e h)) (prompts s)).
      destruct (IH (messages ++ [tool_message tc r]) s1)
        as (pre & th & post & err & -> & Hpre & Hth & s' & t & E & Hp & Ha).
      * exact Hrest.
      * intros th Hin. apply Hs. right. exact Hin.
      * destruct Hf as (th & err & [<- | Hin] & Hr); [unfold ends in Hr; simpl in Hr; congruence |].
        exists th, err. auto.
      * exists ((tc, h) :: pre), th, post, err. split; [reflexivity |].
        split; [| split; [exact Hth |]].
        -- intros th' [<- | Hin]; [exists r; exact Ec | auto].
        -- exists s', (IoAwait h (Resolved r) :: t). simpl.
           unfold begun in Hh. simpl in Hh. rewrite Hh, Ec. fold s1. rewrite E.
           auto.
    + exists [], (tc, h), rest, err. split; [reflexivity |].
      split; [intros th' [] |]. split; [exact Ec |].
      eexists. eexists. simpl. unfold begun in Hh. simpl in Hh. rewrite Hh, Ec.
      split; [reflexivity |]. split; [reflexivity | repeat constructor].
    + exfalso. apply (Hs (tc, h)); [left; reflexivity | exact Ec].
Qed.

(** The results of children that all resolved. *)
Lemma resolved_results (depth : number) (handles : list (value * handle)) :
  (forall th, In th handles ->
              exists res, ends subtopic_of e depth th = Resolved res) ->
  exists results,
    Forall2 (fun th r => ends subtopic_of e depth th = Resolved r)
            handles results.
Proof.
  induction handles as [| th rest IH]; intros Hr.
  - exists []. constructor.
  - destruct (Hr th (or_introl eq_refl)) as (res & Eres).
    destruct IH as (results & Hf); [intros th' Hin; apply Hr; right; exact Hin |].
    exists (res :: results). constructor; assumption.
Qed.

(** Awaiting executes no [prompt]. *)
Lemma live_fan_in_prompts (handles : list (value * handle)) :
  forall (messages : list message) (s : substrate),
    prompts (fst (fst (exec (live e) (fan_in handles messages) s))) = prompts s.
Proof.
  induction handles as [| [tc h] rest IH]; intros messages s; [reflexivity |].
  simpl. destruct (nth_error (spawned s) h) as [[st d] |]; [| reflexivity].
  destruct (child e h st d) as [r | err |]; try reflexivity.
  set (s1 := mk_substrate (spawned s) (Nat.max (now s) (finish e h)) (prompts s)).
  specialize (IH (messages ++ [tool_message tc r]) s1).
  destruct (exec (live e) (fan_in rest (messages ++ [tool_message tc r])) s1)
    as [[s2 t2] o2].
  exact IH.
Qed.

(** A batch with a failing child never completes its fan-in. *)
Lemma live_fan_in_not_returned (depth : number) (handles : list (value * handle))
      (messages messages' : list message) (s s' : substrate) (t : list io)
      (th : value * handle) (err : error) :
  Forall (begun subtopic_of depth s) handles ->
  In th handles ->
  ends subtopic_of e depth th = Rejected err ->
  exec (live e) (fan_in handles messages) s <> (s', t, Returned messages').
Proof.
  intros Hb Hin Hr E.
  destruct (@live_fan_in_returned subtopic_of e depth handles _ _ _ _ _ Hb E)
    as (results & Hf & _).
  clear - Hf Hin Hr. induction Hf as [| th0 r0 l rs H0 Hl IH]; [destruct Hin |].
  destruct Hin as [-> | Hin]; [congruence | auto].
Qed.

End LiveFailure.

(** ** Order of spawns and awaits *)

Lemma ordered_spawns (sp t : list io) :
  Forall (fun x => is_spawn x = true) sp ->
  ordered false t = true -> ordered false (sp ++ t) = true.
Proof.
  induction 1 as [| [ms a | st d a | h a] sp Hx Hsp IH]; simpl; auto; discriminate.
Qed.

Lemma ordered_awaits (aw t : list io) :
  Forall (fun x => is_await x = true) aw ->
  (forall b, ordered b t = true) -> forall b, ordered b (aw ++ t) = true.
Proof.
  induction 1 as [| [ms a | st d a | h a] aw Hx Haw IH]; simpl; auto; discriminate.
Qed.

(** In an ordered trace a spawn that comes after an await is separated from
    it by a consultation. *)
Lemma ordered_after_await (t2 : list io) :
  forall (subtopic : string) (depth : number) (a : reply handle) (t3 : list io),
    ordered true (t2 ++ IoBeginRpc subtopic depth a :: t3) = true ->
    exists messages r, In (IoRun messages r) t2.
Proof.
  induction t2 as [| [ms a' | st d a' | h a'] t2 IH]; intros subtopic depth a t3; simpl.
  - discriminate.
  - intros _. exists ms, a'. left. reflexivity.
  - discriminate.
  - intros E. destruct (IH _ _ _ _ E) as (ms & r & Hin). exists ms, r. right. exact Hin.
Qed.

(** What follows an await in an ordered trace is ordered, the await
    remembered. *)
Lemma ordered_split (t1 : list io) :
  forall (b : bool) (h : handle) (a : reply value) (t : list io),
    ordered b (t1 ++ IoAwait h a :: t) = true -> ordered true t = true.
Proof.
  induction t1 as [| [ms a' | st d a' | h' a'] t1 IH]; intros b h a t; simpl; eauto.
  intros E. apply andb_true_iff in E. destruct E as (_ & E). eauto.
Qed.

Section LoopOrder.
Variable subtopic_of : value -> string.
Context {W : Type} (H : handler W).

(** Turn after turn, the trace of the loop is ordered. *)
Lemma loop_ordered (fuel : nat) (depth : number) :
  forall (messages : list message) (w : W) (b : bool),
    ordered b (snd (fst (research_loop subtopic_of H fuel depth messages w))) = true.
Proof.
  induction fuel as [| fuel IH]; intros messages w b; [reflexivity |].
  rewrite loop_step.
  destruct (body_shape subtopic_of H depth messages w) as (sp & aw & E & Hs & Ha).
  destruct (exec H (research_body subtopic_of depth messages) w) as [[w1 t1] o1].
  simpl in E. subst t1.
  assert (Hend : forall t, (forall b, ordered b t = true) ->
                           ordered b ((IoRun messages (snd (on_run H messages depth w))
                                         :: sp ++ aw) ++ t) = true).
  { intros t Ht. simpl. rewrite <- app_assoc.
    apply ordered_spawns; [exact Hs |]. apply ordered_awaits; auto. }
  destruct o1 as [[m | res] | e |]; simpl fst; simpl snd;
    try (rewrite <- (app_nil_r (_ :: _)); apply Hend; reflexivity).
  specialize (IH m w1).
  destruct (research_loop subtopic_of H fuel depth m w1) as [[w2 t2] o2].
  apply Hend. exact IH.
Qed.

(** ** The history only grows *)

Lemma tool_messages_are_tools (handles : list (value * handle))
      (results : list value) :
  Forall (fun x => is_tool x = true) (tool_messages handles results).
Proof.
  unfold tool_messages. apply Forall_forall. intros x Hin.
  apply in_map_iff in Hin. destruct Hin as (hr & <- & _). reflexivity.
Qed.

(** The histories the oracle is consulted with: the loop's [messages] first,
    then each one the previous one with entries appended. *)
Lemma loop_histories (fuel : nat) (depth : number) :
  forall (messages : list message) (w : W),
    growing (histories (snd (fst (research_loop subtopic_of H fuel depth messages w))))
    /\ (fuel = 0%nat \/
        exists rest,
          histories (snd (fst (research_loop subtopic_of H fuel depth messages w))) =
          messages :: rest).
Proof.
  induction fuel as [| fuel IH]; intros messages w;
    [split; [constructor | left; reflexivity] |].
  rewrite loop_step.
  destruct (body_shape subtopic_of H depth messages w) as (sp & aw & E & Hs & Ha).
  destruct (exec H (research_body subtopic_of depth messages) w)
    as [[w1 t1] o1] eqn:Eb.
  simpl in E.
  assert (Ht1 : histories t1 = [messages]).
  { subst t1. simpl. rewrite histories_app, (histories_awaits Ha).
    rewrite histories_no_run; [reflexivity |].
    eapply Forall_impl; [| exact Hs].
    intros [ms a | st d a | h a]; simpl; congruence. }
  destruct o1 as [[m | res] | e |]; simpl fst; simpl snd;
    try (rewrite Ht1; split; [constructor | right; exists []; reflexivity]).
  destruct (IH m w1) as (Hg & [-> | (rest & Er)]).
  - simpl. rewrite app_nil_r, Ht1. split; [constructor | right; exists []; reflexivity].
  - destruct (research_loop subtopic_of H fuel depth m w1) as [[w2 t2] o2].
    cbn [fst snd] in *. rewrite histories_app, Ht1, Er in *. simpl.
    split; [| right; eauto]. constructor; [| exact Hg].
    destruct (@body_continues subtopic_of W H depth messages m w w1 t1 Eb)
      as (r & tcs & hs & results & _ & _ & _ & _ & _ & ->).
    exists r, (tool_messages hs results). split; [reflexivity |].
    apply tool_messages_are_tools.
Qed.

End LoopOrder.

(** In a growing list of histories, every history extends the ones before
    it. *)
Lemma growing_prefix (l : list (list message)) :
  growing l ->
  forall (i j : nat) (m m' : list message),
    i <= j -> nth_error l i = Some m -> nth_error l j = Some m' ->
    exists suffix, m' = m ++ suffix.
Proof.
  induction 1 as [| m0 | m0 m1 l Hg Hl IH]; intros i j m m' Hij Hi Hj.
  - destruct i; discriminate.
  - destruct i as [| i]; [| destruct i; discriminate].
    destruct j as [| j]; [| destruct j; discriminate].
    simpl in *. exists []. rewrite app_nil_r. congruence.
  - destruct i as [| i].
    + simpl in Hi. inversion Hi; subst m0. destruct j as [| j].
      * simpl in Hj. exists []. rewrite app_nil_r. congruence.
      * simpl in Hj. destruct (IH 0%nat j m1 m' (Nat.le_0_l j) eq_refl Hj)
          as (suffix & ->).
        destruct Hg as (r & tools & -> & _).
        exists ((Assistant r :: tools) ++ suffix). rewrite app_assoc. reflexivity.
    + destruct j as [| j]; [lia |]. simpl in Hi, Hj.
      apply (IH i j); auto; lia.
Qed.

Lemma growing_next (l : list (list message)) :
  growing l ->
  forall (i : nat) (m m' : list message),
    nth_error l i = Some m -> nth_error l (S i) = Some m' -> grows m m'.
Proof.
  induction 1 as [| m0 | m0 m1 l Hg Hl IH]; intros i m m' Hi Hj.
  - destruct i; discriminate.
  - destruct i; discriminate.
  - destruct i as [| i].
    + simpl in Hi, Hj. congruence.
    + simpl in Hi. apply (IH i); auto.
Qed.


(** The children before [th] resolve and the child of [th] never settles:
    the generator stays suspended at its await. *)
Lemma live_fan_in_pending (subtopic_of : value -> string) (e : world)
      (depth : number) (pre : list (value * handle)) :
  forall (results : list value) (th : value * handle)
         (post : list (value * handle))
         (messages : list message) (s : substrate),
    Forall (begun subtopic_of depth s) (pre ++ [th]) ->
    Forall2 (fun th r => ends subtopic_of e depth th = Resolved r)
            pre results ->
    ends subtopic_of e depth th = Pending ->
    snd (exec (live e) (fan_in (pre ++ th :: post) messages) s) = Blocked.
Proof.
  induction pre as [| [tc h] rest IH];
    intros results th post messages s Hb Hc He.
  - inversion Hc; subst. inversion Hb as [| th' rest' Hh Hrest]; subst.
    destruct th as [tc h]. simpl. unfold begun in Hh. unfold ends in He. simpl in Hh, He.
    rewrite Hh, He. reflexivity.
  - inversion Hc as [| th0 r rest' rs Hr Hrs]; subst.
    inversion Hb as [| th' rest' Hh Hrest]; subst.
    simpl. unfold begun in Hh. unfold ends in Hr. simpl in Hh, Hr.
    rewrite Hh, Hr.
    set (s1 := mk_substrate (spawned s) (Nat.max (now s) (finish e h)) (prompts s)).
    specialize (IH rs th post (messages ++ [tool_message tc r]) s1 Hrest Hrs He).
    destruct (exec (live e) (fan_in (rest ++ th :: post)
                                    (messages ++ [tool_message tc r])) s1)
      as [[s2 t2] o2].
    exact IH.
Qed.

(** * The claims *)


(** The scenario of the spec with two children, on the whole call tree: two
    children are begun with depth 0 and the result is the synthesis. *)
Example scenario_two_children :
  research_tree topic_of_arguments oracle_tree (fun h => 2 - h) 2 "X" (of_Z 1)
  = Resolved (Text "Synthesis(A1,A2)") /\
  requests (snd (fst (research topic_of_arguments (live world_synthesis) 2 "X"
                               (of_Z 1) boot)))
  = [("X1", of_Z 0); ("X2", of_Z 0)].
Proof. split; reflexivity. Qed.


(** C2 as stated fails for large depths: [depth] is a JavaScript number,
    and at depth 10^16 the subtraction [depth - 1] rounds back to 10^16, so
    the children are begun with the depth of their parent. *)
Lemma large_depth_is_not_decremented :
  greater (of_Z (10 ^ 16)) zero = true /\
  integer (of_Z (10 ^ 16)) = Some (10 ^ 16)%Z /\
  requests (snd (fst (exec (live world_synthesis)
                           (research_body topic_of_arguments (of_Z (10 ^ 16))
                                          (initial_messages "X"))
                           boot)))
  = [("X1", of_Z (10 ^ 16)); ("X2", of_Z (10 ^ 16))].
Proof. repeat split; reflexivity. Qed.

(** C2, as the code has it.  In a turn at depth > 0 whose response carries
    n >= 1 tool calls, exactly n children are begun, one per tool call and
    in their order, each with the value JavaScript gives [depth - 1]; when
    [depth] is an integer up to 2^53 that value is exactly [depth - 1].
    When the turn completes, the tool message appended for each tool call
    carries that call's identifier and the result of the child that was
    begun for it. *)
Theorem fan_out_one_child_per_request (subtopic_of : value -> string)
        (e : world) (depth : number) (messages : list message) (s : substrate)
        (r : value) (tcs : list value) :
  greater depth zero = true ->
  (1 <= length tcs)%nat ->
  prompt e messages depth = Resolved r ->
  tool_calls r = Some tcs ->
  let run := exec (live e) (research_body subtopic_of depth messages) s in
  requests (snd (fst run)) = map (fun tc => (subtopic_of tc, minus depth one)) tcs /\
  length (requests (snd (fst run))) = length tcs /\
  (forall z : Z,
      (0 < z <= 2 ^ 53)%Z -> depth = of_Z z ->
      requests (snd (fst run)) = map (fun tc => (subtopic_of tc, of_Z (z - 1))) tcs /\
      integer depth = Some z /\ integer (of_Z (z - 1)) = Some (z - 1)%Z) /\
  (forall messages',
      snd run = Returned (inl messages') ->
      exists results,
        Forall2 (fun th res => ends subtopic_of e depth th = Resolved res)
                (batch s tcs) results /\
        messages' =
        messages ++ Assistant r
                 :: map (fun p => Tool (identifier (fst p)) (snd p))
                        (combine tcs results)).
Proof.
  intros _ _ Ep Etc run.
  assert (Hq : requests (snd (fst run)) =
               map (fun tc => (subtopic_of tc, minus depth one)) tcs)
    by exact (live_turn_requests subtopic_of e depth messages s Ep Etc).
  split; [exact Hq |]. split; [rewrite Hq; apply length_map |]. split.
  - intros z Hz ->. rewrite Hq, minus_one_exact by exact Hz.
    split; [reflexivity |]. split; apply integer_of_Z; lia.
  - intros messages'. unfold run.
    destruct (live_turn subtopic_of e depth messages s Ep Etc) as (Hb & ->).
    set (s1 := mk_substrate _ _ _) in *.
    destruct (exec (live e) (fan_in (batch s tcs) (messages ++ [Assistant r])) s1)
      as [[s2 t2] [m | err |]] eqn:E; simpl; try discriminate.
    intros Em; inversion Em; subst.
    destruct (@live_fan_in_returned subtopic_of e depth (batch s tcs) _ _ _ _ _ Hb E)
      as (results & Hf & ->).
    exists results. split; [exact Hf |].
    unfold batch. rewrite tool_messages_combine by apply length_seq.
    rewrite <- app_assoc. reflexivity.
Qed.

(** The scenario with two children at depth 1: both are begun with depth 0. *)
Lemma fan_out_one_child_per_request_witness :
  let run := exec (live world_synthesis)
                  (research_body topic_of_arguments (of_Z 1) (initial_messages "X"))
                  boot in
  requests (snd (fst run)) =
  map (fun tc => (topic_of_arguments tc, minus (of_Z 1) one)) [id1; id2] /\
  length (requests (snd (fst run))) = length [id1; id2] /\
  (forall z : Z,
      (0 < z <= 2 ^ 53)%Z -> of_Z 1 = of_Z z ->
      requests (snd (fst run)) =
      map (fun tc => (topic_of_arguments tc, of_Z (z - 1))) [id1; id2] /\
      integer (of_Z 1) = Some z /\ integer (of_Z (z - 1)) = Some (z - 1)%Z) /\
  (forall messages',
      snd run = Returned (inl messages') ->
      exists results,
        Forall2 (fun th res =>
                   ends topic_of_arguments world_synthesis (of_Z 1) th = Resolved res)
                (batch boot [id1; id2]) results /\
        messages' =
        initial_messages "X" ++ Assistant (asks [id1; id2])
          :: map (fun p => Tool (identifier (fst p)) (snd p))
                 (combine [id1; id2] results)).
Proof.
  apply (@fan_out_one_child_per_request topic_of_arguments world_synthesis (of_Z 1)
           (initial_messages "X") boot (asks [id1; id2]) [id1; id2]).
  - reflexivity.
  - simpl. lia.
  - reflexivity.
  - reflexivity.
Defined.

(** C3.  In a fan-in step whose children all resolve, the tool messages
    appended to the history are in the order of the tool calls of the
    response, whatever the times [finish] at which the children settle. *)
Theorem fan_in_keeps_request_order (subtopic_of : value -> string)
        (oracle : list message -> number -> reply value)
        (child : handle -> string -> number -> reply value) (finish : handle -> nat)
        (depth : number) (messages : list message) (s : substrate)
        (r : value) (tcs : list value) (results : list value) :
  oracle messages depth = Resolved r ->
  tool_calls r = Some tcs ->
  Forall2 (fun th res =>
             ends subtopic_of (mk_world oracle child finish) depth th = Resolved res)
          (batch s tcs) results ->
  snd (exec (live (mk_world oracle child finish))
            (research_body subtopic_of depth messages) s) =
  Returned (inl (messages ++ Assistant r
                   :: map (fun p => Tool (identifier (fst p)) (snd p))
                          (combine tcs results))).
Proof.
  intros Ep Etc Hc. set (e := mk_world oracle child finish) in *.
  destruct (@live_turn subtopic_of e depth messages s r tcs Ep Etc) as (Hb & ->).
  set (s1 := mk_substrate _ _ _) in *.
  destruct (@live_fan_in_resolved subtopic_of e depth (batch s tcs) results
                                  (messages ++ [Assistant r]) s1 Hb Hc)
    as (s' & -> & _).
  simpl. unfold batch. rewrite tool_messages_combine by apply length_seq.
  rewrite <- app_assoc. reflexivity.
Qed.

(** Two children; the second one finishes first, and its tool message still
    comes second. *)
Lemma fan_in_keeps_request_order_witness :
  snd (exec (live world_synthesis)
            (research_body topic_of_arguments (of_Z 1) (initial_messages "X")) boot) =
  Returned (inl (initial_messages "X"
                   ++ [Assistant (asks [id1; id2]);
                       Tool (Text "id1") (Text "A1"); Tool (Text "id2") (Text "A2")])).
Proof.
  apply (@fan_in_keeps_request_order topic_of_arguments oracle_synthesis
           (child world_synthesis) (finish world_synthesis) (of_Z 1)
           (initial_messages "X") boot (asks [id1; id2]) [id1; id2]
           [Text "A1"; Text "A2"]).
  - reflexivity.
  - reflexivity.
  - repeat constructor.
Defined.

(** With an empty [tool_calls] array, the response has no decomposition
    request and yet nothing is returned: no child is begun and the oracle is
    consulted again, turn after turn. *)
Lemma asks_nothing_never_returns (fuel : nat) :
  forall (depth : number) (messages : list message) (s : substrate),
    snd (research_loop topic_of_arguments (live (world_of asks_nothing)) fuel depth
                       messages s) = None.
Proof.
  induction fuel as [| fuel IH]; intros depth messages s; [reflexivity |].
  rewrite loop_step, exec_body. simpl.
  match goal with
  | |- context [research_loop _ _ fuel depth ?m ?s1] =>
      specialize (IH depth m s1);
      destruct (research_loop topic_of_arguments (live (world_of asks_nothing)) fuel
                              depth m s1) as [[w2 t2] o2]
  end.
  exact IH.
Qed.

(** C4, at the failing input: topic "X", depth 0, and an oracle that answers
    [{ content: "A", tool_calls: [] }].  The response contains no
    decomposition request, and the claim says that its content is returned;
    but an empty array is truthy, so the test [if (response.tool_calls)]
    passes: the content "A" is not returned, whatever the fuel; no child is
    begun and the oracle is consulted again, three times in three turns. *)
Theorem empty_tool_calls_is_not_an_answer :
  tool_calls (Object [("role", Text "assistant"); ("content", Text "A");
                      ("tool_calls", Array [])]) = Some [] /\
  (forall fuel,
      snd (research topic_of_arguments (live (world_of asks_nothing)) fuel "X" zero boot)
      = None) /\
  length (histories (snd (fst (research topic_of_arguments
                                        (live (world_of asks_nothing)) 3 "X" zero
                                        boot))))
  = 3%nat /\
  requests (snd (fst (research topic_of_arguments
                               (live (world_of asks_nothing)) 3 "X" zero boot))) = [].
Proof.
  split; [reflexivity |]. split; [| split; reflexivity].
  intros fuel. apply asks_nothing_never_returns.
Qed.

(** C5 as stated fails: the parent does not fail as soon as a child fails,
    and the failure it surfaces need not be the first one.  With two
    children that both fail, the second at time 1 and the first at time 10,
    the parent fails with the failure of the first child, the later one; and
    while the first child has not settled, the failure of the second one
    fails nothing: the parent stays suspended. *)
Lemma first_failure_is_not_surfaced :
  (ends topic_of_arguments world_two_failures (of_Z 2) (id1, 0%nat)
   = Rejected (Exception "late failure") /\
   ends topic_of_arguments world_two_failures (of_Z 2) (id2, 1%nat)
   = Rejected (Exception "early failure") /\
   (finish world_two_failures 1 < finish world_two_failures 0)%nat /\
   snd (research topic_of_arguments (live world_two_failures) 1 "X" (of_Z 2) boot)
   = Some (Threw (Exception "late failure"))) /\
  (ends topic_of_arguments world_stuck (of_Z 2) (id2, 1%nat)
   = Rejected (Exception "OracleFailure") /\
   forall fuel,
     snd (research topic_of_arguments (live world_stuck) (S fuel) "X" (of_Z 2) boot)
     = Some Blocked).
Proof.
  split; [repeat split; try reflexivity; simpl; lia |].
  split; [reflexivity |]. intros fuel. reflexivity.
Qed.

(** C5, as the code has it.  The children of a batch are awaited one after
    the other, in the order of the requests.  When a child of the batch
    fails, the invocation consults the oracle no more and returns no result,
    so no sibling's result reaches any output.  What the invocation makes of
    the batch is decided by the first child, in the order of the requests,
    that does not resolve: if it fails, its exception is the outcome,
    whatever became of the children requested after it and whenever each
    child finished; if it never settles, the invocation stays suspended.
    When all the children of the batch settle, the first one to fail in
    request order is such a child. *)
Theorem child_failure_fails_parent (subtopic_of : value -> string)
        (e : world) (fuel : nat) (depth : number) (messages : list message)
        (s : substrate) (r : value) (tcs : list value)
        (failing : value * handle) (failure : error) :
  prompt e messages depth = Resolved r ->
  tool_calls r = Some tcs ->
  In failing (batch s tcs) ->
  ends subtopic_of e depth failing = Rejected failure ->
  let run := research_loop subtopic_of (live e) (S fuel) depth messages s in
  (histories (snd (fst run)) = [messages] /\
   prompts (fst (fst run)) = S (prompts s)) /\
  (forall result, snd run <> Some (Returned result)) /\
  (forall pre th post err,
      batch s tcs = pre ++ th :: post ->
      (forall th', In th' pre ->
                   exists res, ends subtopic_of e depth th' = Resolved res) ->
      ends subtopic_of e depth th = Rejected err ->
      snd run = Some (Threw err)) /\
  (forall pre th post,
      batch s tcs = pre ++ th :: post ->
      (forall th', In th' pre ->
                   exists res, ends subtopic_of e depth th' = Resolved res) ->
      ends subtopic_of e depth th = Pending ->
      snd run = Some Blocked) /\
  ((forall th, In th (batch s tcs) -> ends subtopic_of e depth th <> Pending) ->
   exists pre th post err,
     batch s tcs = pre ++ th :: post /\
     (forall th', In th' pre ->
                  exists res, ends subtopic_of e depth th' = Resolved res) /\
     ends subtopic_of e depth th = Rejected err).
Proof.
  intros Ep Etc Hin Hfail run. unfold run. clear run.
  destruct (@live_turn subtopic_of e depth messages s r tcs Ep Etc) as (Hb & E).
  set (s1 := mk_substrate _ _ _) in *. set (hs := batch s tcs) in *. clearbody hs.
  pose proof (live_fan_in_prompts e hs (messages ++ [Assistant r]) s1) as Hp.
  pose proof (fan_in_trace (live e) hs (messages ++ [Assistant r]) s1) as Ha.
  rewrite loop_step, E.
  assert (Hcut : forall pre th post,
             hs = pre ++ th :: post ->
             Forall (begun subtopic_of depth s1) (pre ++ [th])).
  { intros pre th post Eh. rewrite Eh in Hb. apply Forall_app in Hb.
    destruct Hb as (Hb1 & Hb2). apply Forall_app. split; [exact Hb1 |].
    inversion Hb2; subst. constructor; [assumption | constructor]. }
  assert (Hstuck : forall pre th post,
             hs = pre ++ th :: post ->
             (forall th', In th' pre ->
                  exists res, ends subtopic_of e depth th' = Resolved res) ->
             ends subtopic_of e depth th = Pending ->
             snd (exec (live e) (fan_in hs (messages ++ [Assistant r])) s1) = Blocked).
  { intros pre th post Eh Hpre Hpend.
    destruct (@resolved_results subtopic_of e depth pre Hpre) as (results & Hres).
    rewrite Eh.
    exact (@live_fan_in_pending subtopic_of e depth pre results th post
             (messages ++ [Assistant r]) s1 (Hcut pre th post Eh) Hres Hpend). }
  destruct (exec (live e) (fan_in hs (messages ++ [Assistant r])) s1)
    as [[s2 t2] o2] eqn:Ef.
  destruct Ha as (Ha & _). cbn [fst snd] in Hp, Hstuck.
  assert (Hh : histories (IoRun messages (Resolved r)
                            :: spawn_ios subtopic_of depth hs ++ t2) = [messages]).
  { simpl. rewrite histories_app, histories_spawn_ios, (histories_awaits Ha).
    reflexivity. }
  assert (Hfirst : forall pre th post err,
             hs = pre ++ th :: post ->
             (forall th', In th' pre ->
                  exists res, ends subtopic_of e depth th' = Resolved res) ->
             ends subtopic_of e depth th = Rejected err ->
             o2 = Threw err).
  { intros pre th post err Eh Hpre Herr.
    destruct (@resolved_results subtopic_of e depth pre Hpre) as (results & Hres).
    destruct (@live_fan_in_rejected subtopic_of e depth pre results th post
                err (messages ++ [Assistant r]) s1 (Hcut pre th post Eh) Hres Herr)
      as (s' & Ef' & _).
    rewrite <- Eh in Ef'. congruence. }
  assert (Hsettle :
            (forall th, In th hs -> ends subtopic_of e depth th <> Pending) ->
            exists pre th post err,
              hs = pre ++ th :: post /\
              (forall th', In th' pre ->
                   exists res, ends subtopic_of e depth th' = Resolved res) /\
              ends subtopic_of e depth th = Rejected err).
  { intros Hs.
    destruct (@live_fan_in_fails subtopic_of e depth hs (messages ++ [Assistant r]) s1
                Hb Hs)
      as (pre & th1 & post & err & Eh & Hpre & Hth1 & _).
    - exists failing, failure. auto.
    - exists pre, th1, post, err. auto. }
  destruct o2 as [m | err0 |].
  - exfalso.
    exact (@live_fan_in_not_returned subtopic_of e depth hs _ m s1 s2 t2 failing
             failure Hb Hin Hfail Ef).
  - cbn [lift_turn fst snd]. split; [split; [exact Hh | exact Hp] |].
    split; [discriminate |]. split; [| split; [| exact Hsettle]].
    + intros pre th post err H1 H2 H3.
      pose proof (Hfirst pre th post err H1 H2 H3) as Hx. inversion Hx. reflexivity.
    + intros pre th post H1 H2 H3. discriminate (Hstuck pre th post H1 H2 H3).
  - cbn [lift_turn fst snd]. split; [split; [exact Hh | exact Hp] |].
    split; [discriminate |]. split; [| split; [| exact Hsettle]].
    + intros pre th post err H1 H2 H3. discriminate (Hfirst pre th post err H1 H2 H3).
    + reflexivity.
Qed.

(** Three children; the second fails, after the third has resolved: the
    invocation fails with the second child's exception and the oracle is
    consulted once. *)
Lemma child_failure_fails_parent_witness :
  let run := research_loop topic_of_arguments (live world_failing) 1 (of_Z 2)
                           (initial_messages "X") boot in
  (histories (snd (fst run)) = [initial_messages "X"] /\
   prompts (fst (fst run)) = S (prompts boot)) /\
  (forall result, snd run <> Some (Returned result)) /\
  snd run = Some (Threw (Exception "OracleFailure")) /\
  (exists pre th post err,
      batch boot [id1; id2; id3] = pre ++ th :: post /\
      (forall th', In th' pre ->
                   exists res,
                     ends topic_of_arguments world_failing (of_Z 2) th' = Resolved res) /\
      ends topic_of_arguments world_failing (of_Z 2) th = Rejected err).
Proof.
  destruct (@child_failure_fails_parent topic_of_arguments world_failing 0%nat (of_Z 2)
              (initial_messages "X") boot (asks [id1; id2; id3]) [id1; id2; id3]
              (id2, 1%nat) (Exception "OracleFailure")
              eq_refl eq_refl (or_intror (or_introl eq_refl)) eq_refl)
    as (Hh & Hn & Hfirst & _ & Hs).
  split; [exact Hh |]. split; [exact Hn |]. split.
  - apply (Hfirst [(id1, 0%nat)] (id2, 1%nat) [(id3, 2%nat)] (Exception "OracleFailure")).
    + reflexivity.
    + intros th' [<- | []]. exists (Text "A"). reflexivity.
    + reflexivity.
  - apply Hs. intros th [<- | [<- | [<- | []]]]; discriminate.
Defined.

(** C6.  In the trace of an invocation, a spawn never follows an await of
    the same batch: whenever an await comes before a spawn, a consultation of
    the oracle lies between them, so the spawn belongs to a later response.
    All handles of one response are created before any of them is awaited. *)
Theorem fan_out_completes_before_fan_in (subtopic_of : value -> string)
        (W : Type) (H : handler W) (fuel : nat) (topic : string) (depth : number)
        (w : W) (t1 t2 t3 : list io) (h : handle) (a : reply value)
        (subtopic : string) (d : number) (a' : reply handle) :
  snd (fst (research subtopic_of H fuel topic depth w)) =
  t1 ++ IoAwait h a :: t2 ++ IoBeginRpc subtopic d a' :: t3 ->
  exists messages r, In (IoRun messages r) t2.
Proof.
  intros E. unfold research in E.
  pose proof (loop_ordered subtopic_of H fuel depth (initial_messages topic) w false)
    as Ho.
  rewrite E in Ho. apply ordered_split in Ho.
  exact (ordered_after_await _ _ _ _ _ Ho).
Qed.

(** Two turns of one child each: the second spawn comes after the first
    await, and the second consultation lies between them. *)
Lemma fan_out_completes_before_fan_in_witness :
  exists messages r,
    In (IoRun messages r)
       [IoRun (initial_messages "X"
                 ++ [Assistant (asks [id1]); Tool (Text "id1") (Text "A")])
              (Resolved (asks [id1]))].
Proof.
  apply (@fan_out_completes_before_fan_in topic_of_arguments substrate
           (live (world_of always_asks)) 2%nat "X" (of_Z 1) boot
           [IoRun (initial_messages "X") (Resolved (asks [id1]));
            IoBeginRpc "X1" (of_Z 0) (Resolved 0%nat)]
           [IoRun (initial_messages "X"
                     ++ [Assistant (asks [id1]); Tool (Text "id1") (Text "A")])
                  (Resolved (asks [id1]))]
           [IoAwait 1%nat (Resolved (Text "A"))]
           0%nat (Resolved (Text "A")) "X1" (of_Z 0) (Resolved 1%nat)).
  reflexivity.
Defined.




(** C8.  The history of an invocation is append-only.  Of two histories the
    oracle is consulted with, the later one is the earlier one with entries
    appended, and the first one extends the initial history; from one
    consultation to the next exactly the assistant's response and then tool
    messages are appended.  Within a turn that goes round again, the appended
    entries are the response and one tool message for each awaited child, in
    the order of the awaits.  Nothing that is in the history is changed,
    removed or moved. *)
Theorem history_is_append_only (subtopic_of : value -> string) (W : Type)
        (H : handler W) (depth : number) :
  (forall (fuel : nat) (topic : string) (w : W) (i j : nat) (m m' : list message),
      i <= j ->
      nth_error (histories (snd (fst (research subtopic_of H fuel topic depth w)))) i
      = Some m ->
      nth_error (histories (snd (fst (research subtopic_of H fuel topic depth w)))) j
      = Some m' ->
      (exists suffix, m' = initial_messages topic ++ suffix) /\
      (exists suffix, m' = m ++ suffix) /\
      (j = S i ->
       exists r tools, m' = m ++ Assistant r :: tools /\
                       Forall (fun x => is_tool x = true) tools)) /\
  (forall (messages messages' : list message) (w w' : W) (t : list io),
      exec H (research_body subtopic_of depth messages) w =
      (w', t, Returned (inl messages')) ->
      exists r handles results,
        length results = length handles /\
        t = IoRun messages (Resolved r)
              :: spawn_ios subtopic_of depth handles ++ await_ios handles results /\
        messages' = messages ++ Assistant r :: tool_messages handles results).
Proof.
  split.
  - intros fuel topic w i j m m' Hij Hi Hj. unfold research in *.
    destruct (loop_histories subtopic_of H fuel depth (initial_messages topic) w)
      as (Hg & Hhd).
    split; [| split].
    + destruct Hhd as [-> | (rest & Er)]; [destruct j; discriminate |].
      apply (growing_prefix Hg (i := 0) (j := j)); [lia | | exact Hj].
      rewrite Er. reflexivity.
    + exact (growing_prefix Hg Hij Hi Hj).
    + intros ->. exact (growing_next Hg _ Hi Hj).
  - intros messages messages' w w' t E.
    destruct (body_continues _ _ _ _ _ E)
      as (r & tcs & hs & results & _ & _ & _ & Hl & Ht & Hm).
    exists r, hs, results. auto.
Qed.

(** The scenario with two children: the second consultation sees the first
    history with the response and the two tool messages appended. *)
Lemma history_is_append_only_witness :
  (exists suffix,
      initial_messages "X"
        ++ [Assistant (asks [id1; id2]); Tool (Text "id1") (Text "A1");
           Tool (Text "id2") (Text "A2")]
      = initial_messages "X" ++ suffix) /\
  (exists suffix,
      initial_messages "X"
        ++ [Assistant (asks [id1; id2]); Tool (Text "id1") (Text "A1");
           Tool (Text "id2") (Text "A2")]
      = initial_messages "X" ++ suffix) /\
  (1 = 1 ->
   exists r tools,
     initial_messages "X"
       ++ [Assistant (asks [id1; id2]); Tool (Text "id1") (Text "A1");
           Tool (Text "id2") (Text "A2")]
     = initial_messages "X" ++ Assistant r :: tools /\
     Forall (fun x => is_tool x = true) tools)%nat.
Proof.
  apply (proj1 (@history_is_append_only topic_of_arguments substrate
                  (live world_synthesis) (of_Z 1))
               3%nat "X" boot 0%nat 1%nat (initial_messages "X")
               (initial_messages "X"
                  ++ [Assistant (asks [id1; id2]); Tool (Text "id1") (Text "A1");
           Tool (Text "id2") (Text "A2")])).
  - lia.
  - reflexivity.
  - reflexivity.
Defined.

(** C10.  Every invocation consults the oracle at least once, and the
    consultation is its first action, for every topic and depth: the trace
    of [research] starts with [ctx.run(prompt, messages)] on the initial
    history; every spawn comes later in the trace, and unless that first
    consultation is answered nothing else happens and nothing is returned. *)
Theorem research_consults_first (subtopic_of : value -> string) (W : Type)
        (H : handler W) (fuel : nat) (topic : string) (depth : number) (w : W) :
  exists t',
    snd (fst (research subtopic_of H (S fuel) topic depth w)) =
    IoRun (initial_messages topic)
          (snd (on_run H (initial_messages topic) depth w)) :: t' /\
    ((exists r, snd (on_run H (initial_messages topic) depth w)
                = Resolved r) \/
     (t' = [] /\
      forall result,
        snd (research subtopic_of H (S fuel) topic depth w) <> Some (Returned result))).
Proof.
  unfold research. generalize (initial_messages topic) as ms. intros ms.
  rewrite loop_step.
  destruct (body_shape subtopic_of H depth ms w) as (sp & aw & E & _).
  destruct (on_run H ms depth w) as [w1 [r | e |]] eqn:Er.
  - destruct (exec H (research_body subtopic_of depth ms) w) as [[w1' t1] o1].
    simpl in E. subst t1.
    destruct o1 as [[m | res] | e |]; simpl;
      [destruct (research_loop subtopic_of H fuel depth m w1') as [[w2 t2] o2]; simpl
      | | |];
      (eexists; split; [reflexivity | left; eauto]).
  - rewrite exec_body, Er. simpl. exists [].
    split; [reflexivity | right; split; [reflexivity | discriminate]].
  - rewrite exec_body, Er. simpl. exists [].
    split; [reflexivity | right; split; [reflexivity | discriminate]].
Qed.

(** * Further properties of [research] *)

(** ** Reading a turn *)

Lemma asked_app (t1 t2 : list io) : asked (t1 ++ t2) = asked t1 ++ asked t2.
Proof.
  induction t1 as [| [ms [r | e |] | st d a | h a] t1 IH]; simpl; try congruence.
  destruct (tool_calls r) as [tcs |]; [rewrite <- app_assoc |]; congruence.
Qed.

Lemma granted_app (t1 t2 : list io) : granted (t1 ++ t2) = granted t1 ++ granted t2.
Proof.
  induction t1 as [| [ms a | st d [h | e |] | h a] t1 IH]; simpl; congruence.
Qed.

Lemma awaited_app (t1 t2 : list io) : awaited (t1 ++ t2) = awaited t1 ++ awaited t2.
Proof.
  induction t1 as [| [ms a | st d a | h a] t1 IH]; simpl; congruence.
Qed.

Lemma spawns_are_no_runs (t : list io) :
  Forall (fun x => is_spawn x = true) t -> Forall (fun x => is_run x = false) t.
Proof.
  apply Forall_impl. intros [ms a | st d a | h a]; simpl; congruence.
Qed.

Lemma awaits_are_no_runs (t : list io) :
  Forall (fun x => is_await x = true) t -> Forall (fun x => is_run x = false) t.
Proof.
  apply Forall_impl. intros [ms a | st d a | h a]; simpl; congruence.
Qed.

Lemma asked_no_run (t : list io) :
  Forall (fun x => is_run x = false) t -> asked t = [].
Proof.
  induction 1 as [| [ms a | st d a | h a] t Hx Ht IH]; simpl; auto; discriminate.
Qed.

Lemma sizes_no_run (t : list io) :
  Forall (fun x => is_run x = false) t -> forall n, sizes n t = [].
Proof.
  induction 1 as [| [ms a | st d a | h [r | e |]] t Hx Ht IH]; intros n; simpl; auto;
    discriminate.
Qed.

Lemma awaited_spawns (t : list io) :
  Forall (fun x => is_spawn x = true) t -> awaited t = [].
Proof.
  induction 1 as [| [ms a | st d a | h a] t Hx Ht IH]; simpl; auto; discriminate.
Qed.

Lemma granted_awaits (t : list io) :
  Forall (fun x => is_await x = true) t -> granted t = [].
Proof.
  induction 1 as [| [ms a | st d a | h a] t Hx Ht IH]; simpl; auto; discriminate.
Qed.

Lemma granted_spawn_ios (subtopic_of : value -> string) (depth : number)
      (handles : list (value * handle)) :
  granted (spawn_ios subtopic_of depth handles) = map snd handles.
Proof.
  induction handles as [| [tc h] rest IH]; simpl; congruence.
Qed.

Lemma spawn_ios_spawns (subtopic_of : value -> string) (depth : number)
      (handles : list (value * handle)) :
  Forall (fun x => is_spawn x = true) (spawn_ios subtopic_of depth handles).
Proof.
  induction handles as [| th rest IH]; simpl; constructor; auto.
Qed.

Lemma sizes_spawns (sp : list io) :
  Forall (fun x => is_spawn x = true) sp ->
  forall n t, sizes n (sp ++ t) = sizes n t.
Proof.
  induction 1 as [| [ms a | st d a | h a] sp Hx Hsp IH]; intros n t; simpl; auto;
    discriminate.
Qed.

Lemma sizes_await_ios (handles : list (value * handle)) :
  forall (results : list value) (n : nat) (t : list io),
    length results = length handles ->
    sizes n (await_ios handles results ++ t) = sizes (n + length results) t.
Proof.
  unfold await_ios.
  induction handles as [| th rest IH]; intros [| r results] n t Hl;
    try discriminate; simpl.
  - rewrite Nat.add_0_r. reflexivity.
  - rewrite IH by (simpl in Hl; lia). f_equal. lia.
Qed.

Lemma tool_messages_length (handles : list (value * handle))
      (results : list value) :
  length results = length handles ->
  length (tool_messages handles results) = length results.
Proof.
  intros Hl. unfold tool_messages. rewrite length_map, length_combine. lia.
Qed.

Section Turn.
Variable subtopic_of : value -> string.
Context {W : Type} (H : handler W).

(** The history of a turn's consultation is the loop's [messages]. *)
Lemma body_histories (depth : number) (messages : list message) (w : W) :
  histories (snd (fst (exec H (research_body subtopic_of depth messages) w))) =
  [messages].
Proof.
  destruct (body_shape subtopic_of H depth messages w) as (sp & aw & -> & Hs & Ha).
  simpl. rewrite histories_app, (histories_awaits Ha).
  rewrite (histories_no_run (spawns_are_no_runs Hs)). reflexivity.
Qed.

(** Fan-in awaits the handles it is given, first to last, and stops at the
    first one that gives no result. *)
Lemma fan_in_awaited (handles : list (value * handle)) :
  forall (messages : list message) (w : W),
    exists rest,
      map snd handles =
      awaited (snd (fst (exec H (fan_in handles messages) w))) ++ rest /\
      (forall m, snd (exec H (fan_in handles messages) w) = Returned m -> rest = []).
Proof.
  induction handles as [| [tc h] rest IH]; intros messages w; simpl.
  - exists []. auto.
  - destruct (on_await H h w) as [w1 [r | e |]].
    + destruct (IH (messages ++ [tool_message tc r]) w1) as (rest' & E & Hr).
      destruct (exec H (fan_in rest (messages ++ [tool_message tc r])) w1)
        as [[w2 t] o].
      cbn [fst snd] in *. exists rest'. simpl. rewrite E. auto.
    + exists (map snd rest). simpl. split; [reflexivity | discriminate].
    + exists (map snd rest). simpl. split; [reflexivity | discriminate].
Qed.

End Turn.

(** ** One child per tool call, over the whole invocation *)

Section Requests.
Variable subtopic_of : value -> string.
Context {W : Type} (H : handler W).

Lemma body_requests (depth : number) (messages : list message) (w : W) :
  exists rest,
    map (request subtopic_of depth)
        (asked (snd (fst (exec H (research_body subtopic_of depth messages) w)))) =
    requests (snd (fst (exec H (research_body subtopic_of depth messages) w))) ++ rest /\
    (forall x, snd (exec H (research_body subtopic_of depth messages) w) = Returned x ->
               rest = []).
Proof.
  destruct (on_run H messages depth w) as [w1 [r | e |]] eqn:Er;
    try solve [rewrite exec_body, Er; exists []; split; [reflexivity | auto]].
  destruct (tool_calls r) as [tcs |] eqn:Etc.
  2:{ destruct (exec_body_no_calls subtopic_of H depth messages w Er Etc)
        as (o & -> & _).
      exists []. simpl. rewrite Etc. auto. }
  rewrite (exec_body_calls subtopic_of H depth messages w Er Etc).
  pose proof (fan_out_trace subtopic_of H depth tcs [] w1) as Ho.
  destruct (exec H (fan_out subtopic_of depth tcs []) w1) as [[w2 t2] o2].
  destruct Ho as (Hs & (k & Hk) & Hr).
  assert (Hpart : exists rest,
             map (request subtopic_of depth) (tcs ++ asked t2) = requests t2 ++ rest).
  { exists (map (request subtopic_of depth) (skipn k tcs)).
    rewrite (asked_no_run (spawns_are_no_runs Hs)), app_nil_r, Hk.
    unfold request. rewrite <- map_app, firstn_skipn. reflexivity. }
  destruct o2 as [hs | e |].
  - destruct (Hr hs eq_refl) as (new & _ & Hm & ->).
    pose proof (fan_in_trace H hs (messages ++ [Assistant r]) w2) as Hi.
    destruct (exec H (fan_in hs (messages ++ [Assistant r])) w2) as [[w3 t3] o3].
    destruct Hi as (Ha & _). exists []. simpl. rewrite Etc. split; [| auto].
    rewrite asked_no_run, requests_app, requests_spawn_ios, (requests_awaits Ha), Hm.
    + rewrite !app_nil_r. reflexivity.
    + apply Forall_app. split; [| exact (awaits_are_no_runs Ha)].
      apply spawns_are_no_runs. exact Hs.
  - destruct Hpart as (rest & E). exists rest. simpl. rewrite Etc.
    split; [exact E | discriminate].
  - destruct Hpart as (rest & E). exists rest. simpl. rewrite Etc.
    split; [exact E | discriminate].
Qed.

Lemma loop_requests (fuel : nat) (depth : number) :
  forall (messages : list message) (w : W),
    exists rest,
      map (request subtopic_of depth)
          (asked (snd (fst (research_loop subtopic_of H fuel depth messages w)))) =
      requests (snd (fst (research_loop subtopic_of H fuel depth messages w))) ++ rest /\
      (forall res,
          snd (research_loop subtopic_of H fuel depth messages w) = Some (Returned res) ->
          rest = []).
Proof.
  induction fuel as [| fuel IH]; intros messages w.
  - exists []. split; [reflexivity | auto].
  - rewrite loop_step. destruct (body_requests depth messages w) as (rest1 & E1 & H1).
    destruct (exec H (research_body subtopic_of depth messages) w)
      as [[w1 t1] [[m | res] | e |]]; cbn [fst snd] in *;
      try (exists rest1; split; [exact E1 | intros res' _; eauto; discriminate]).
    + rewrite (H1 _ eq_refl), app_nil_r in E1.
      destruct (IH m w1) as (rest2 & E2 & H2).
      destruct (research_loop subtopic_of H fuel depth m w1) as [[w2 t2] o2].
      cbn [fst snd] in *. exists rest2.
      rewrite asked_app, map_app, requests_app, E1, E2, app_assoc. auto.
    + exists rest1. split; [exact E1 | discriminate].
    + exists rest1. split; [exact E1 | discriminate].
Qed.

End Requests.

(** X2.  Over a whole invocation, turn after turn, the children begun are
    the tool calls of the responses received, one child for each tool call
    and in their order, each begun with the call's subtopic and with the
    value of [depth - 1], whatever the turn: no child is begun that was not
    asked for, and when the invocation returns every tool call of every
    response has had its child begun. *)
Theorem research_begins_what_was_asked (subtopic_of : value -> string)
        (W : Type) (H : handler W) (fuel : nat) (topic : string) (depth : number)
        (w : W) :
  let run := research subtopic_of H fuel topic depth w in
  (exists rest,
      map (fun tc => (subtopic_of tc, minus depth one)) (asked (snd (fst run))) =
      requests (snd (fst run)) ++ rest) /\
  (forall result,
      snd run = Some (Returned result) ->
      requests (snd (fst run)) =
      map (fun tc => (subtopic_of tc, minus depth one)) (asked (snd (fst run)))).
Proof.
  intros run. unfold run, research.
  destruct (loop_requests subtopic_of H fuel depth (initial_messages topic) w)
    as (rest & E & Hr).
  split; [exists rest; exact E |].
  intros result Eres. rewrite (Hr result Eres), app_nil_r in E. symmetry. exact E.
Qed.

(** The scenario with two children: both tool calls of the first response
    become children with depth 0. *)
Lemma research_begins_what_was_asked_witness :
  requests (snd (fst (research topic_of_arguments (live world_synthesis) 2 "X"
                               (of_Z 1) boot)))
  = map (fun tc => (topic_of_arguments tc, minus (of_Z 1) one))
        (asked (snd (fst (research topic_of_arguments (live world_synthesis) 2 "X"
                                   (of_Z 1) boot)))).
Proof.
  exact (proj2 (@research_begins_what_was_asked topic_of_arguments substrate
                  (live world_synthesis) 2%nat "X" (of_Z 1) boot)
               (Text "Synthesis(A1,A2)") eq_refl).
Defined.

(** ** Every handle is awaited once, in the order it was given *)

Section Handles.
Variable subtopic_of : value -> string.
Context {W : Type} (H : handler W).

Lemma body_handles (depth : number) (messages : list message) (w : W) :
  exists rest,
    granted (snd (fst (exec H (research_body subtopic_of depth messages) w))) =
    awaited (snd (fst (exec H (research_body subtopic_of depth messages) w))) ++ rest /\
    (forall x, snd (exec H (research_body subtopic_of depth messages) w) = Returned x ->
               rest = []).
Proof.
  destruct (on_run H messages depth w) as [w1 [r | e |]] eqn:Er;
    try solve [rewrite exec_body, Er; exists []; split; [reflexivity | auto]].
  destruct (tool_calls r) as [tcs |] eqn:Etc.
  2:{ destruct (exec_body_no_calls subtopic_of H depth messages w Er Etc)
        as (o & -> & _).
      exists []. auto. }
  rewrite (exec_body_calls subtopic_of H depth messages w Er Etc).
  pose proof (fan_out_trace subtopic_of H depth tcs [] w1) as Ho.
  destruct (exec H (fan_out subtopic_of depth tcs []) w1) as [[w2 t2] o2].
  destruct Ho as (Hs & _ & Hr).
  destruct o2 as [hs | e |].
  - destruct (Hr hs eq_refl) as (new & Ehs & _ & ->). simpl in Ehs. subst hs.
    pose proof (fan_in_trace H new (messages ++ [Assistant r]) w2) as Hi.
    destruct (fan_in_awaited H new (messages ++ [Assistant r]) w2) as (rest & E & Hrest).
    destruct (exec H (fan_in new (messages ++ [Assistant r])) w2) as [[w3 t3] o3].
    destruct Hi as (Ha & _). cbn [fst snd] in *. exists rest. simpl. split.
    + rewrite granted_app, awaited_app, granted_spawn_ios, (granted_awaits Ha).
      rewrite (awaited_spawns Hs), app_nil_r. exact E.
    + intros x Ex. destruct o3 as [m | e |]; try discriminate. eauto.
  - exists (granted t2). simpl. rewrite (awaited_spawns Hs).
    split; [reflexivity | discriminate].
  - exists (granted t2). simpl. rewrite (awaited_spawns Hs).
    split; [reflexivity | discriminate].
Qed.

Lemma loop_handles (fuel : nat) (depth : number) :
  forall (messages : list message) (w : W),
    exists rest,
      granted (snd (fst (research_loop subtopic_of H fuel depth messages w))) =
      awaited (snd (fst (research_loop subtopic_of H fuel depth messages w))) ++ rest /\
      (forall res,
          snd (research_loop subtopic_of H fuel depth messages w) = Some (Returned res) ->
          rest = []).
Proof.
  induction fuel as [| fuel IH]; intros messages w.
  - exists []. split; [reflexivity | auto].
  - rewrite loop_step. destruct (body_handles depth messages w) as (rest1 & E1 & H1).
    destruct (exec H (research_body subtopic_of depth messages) w)
      as [[w1 t1] [[m | res] | e |]]; cbn [fst snd] in *.
    + rewrite (H1 _ eq_refl), app_nil_r in E1.
      destruct (IH m w1) as (rest2 & E2 & H2).
      destruct (research_loop subtopic_of H fuel depth m w1) as [[w2 t2] o2].
      cbn [fst snd] in *. exists rest2.
      rewrite granted_app, awaited_app, E1, E2, app_assoc. auto.
    + exists rest1. split; [exact E1 | intros res' _; eauto].
    + exists rest1. split; [exact E1 | discriminate].
    + exists rest1. split; [exact E1 | discriminate].
Qed.

End Handles.

(** X3.  The handles awaited in the trace of an invocation are, one for
    one and in the same order, the first of the handles [ctx.beginRpc] gave
    it: nothing is awaited that was not given, and a handle given once is
    not awaited twice.  When the invocation returns it has awaited every
    handle it was given: no child is left behind unawaited. *)
Theorem research_awaits_its_handles (subtopic_of : value -> string)
        (W : Type) (H : handler W) (fuel : nat) (topic : string) (depth : number)
        (w : W) :
  let run := research subtopic_of H fuel topic depth w in
  (exists rest, granted (snd (fst run)) = awaited (snd (fst run)) ++ rest) /\
  (forall result,
      snd run = Some (Returned result) ->
      awaited (snd (fst run)) = granted (snd (fst run))).
Proof.
  intros run. unfold run, research.
  destruct (loop_handles subtopic_of H fuel depth (initial_messages topic) w)
    as (rest & E & Hr).
  split; [exists rest; exact E |].
  intros result Eres. rewrite (Hr result Eres), app_nil_r in E. symmetry. exact E.
Qed.

Lemma research_awaits_its_handles_witness :
  awaited (snd (fst (research topic_of_arguments (live world_synthesis) 2 "X"
                              (of_Z 1) boot)))
  = granted (snd (fst (research topic_of_arguments (live world_synthesis) 2 "X"
                                (of_Z 1) boot))).
Proof.
  exact (proj2 (@research_awaits_its_handles topic_of_arguments substrate
                  (live world_synthesis) 2%nat "X" (of_Z 1) boot)
               (Text "Synthesis(A1,A2)") eq_refl).
Defined.

(** ** The size of the history *)

Section Sizes.
Variable subtopic_of : value -> string.
Context {W : Type} (H : handler W).

Lemma loop_sizes (fuel : nat) (depth : number) :
  forall (messages : list message) (w : W),
    map (@length message)
        (histories (snd (fst (research_loop subtopic_of H fuel depth messages w)))) =
    sizes (length messages)
          (snd (fst (research_loop subtopic_of H fuel depth messages w))).
Proof.
  induction fuel as [| fuel IH]; intros messages w; [reflexivity |].
  rewrite loop_step.
  pose proof (body_histories subtopic_of H depth messages w) as Hh.
  destruct (body_shape subtopic_of H depth messages w) as (sp & aw & Et & Hs & Ha).
  destruct (exec H (research_body subtopic_of depth messages) w)
    as [[w1 t1] o1] eqn:Eb.
  cbn [fst snd] in *.
  assert (Hlast : map (@length message) (histories t1) = sizes (length messages) t1).
  { rewrite Hh, Et. simpl. rewrite sizes_no_run; [reflexivity |].
    apply Forall_app. split; [apply spawns_are_no_runs | apply awaits_are_no_runs];
      assumption. }
  destruct o1 as [[m | res] | e |]; cbn [fst snd]; try exact Hlast.
  specialize (IH m w1).
  destruct (@body_continues subtopic_of W H depth messages m w w1 t1 Eb)
    as (r & tcs & hs & results & _ & _ & _ & Hl & Ht & Hm).
  destruct (research_loop subtopic_of H fuel depth m w1) as [[w2 t2] o2].
  cbn [fst snd] in *. rewrite histories_app, map_app, Hh, IH. subst t1 m. simpl.
  injection Ht as _ Hsa. rewrite Hsa.
  rewrite <- app_assoc, (sizes_spawns (spawn_ios_spawns subtopic_of depth hs)).
  rewrite (sizes_await_ios hs results _ t2 Hl).
  rewrite length_app. simpl. rewrite (tool_messages_length hs results Hl).
  do 2 f_equal. lia.
Qed.

End Sizes.

(** X4.  The history grows by one entry at each consultation (the response)
    and by one entry at each await that gives a result (the tool message),
    and by nothing else: the sizes of the histories the oracle is consulted
    with are those of an array that starts with the two initial entries and
    is pushed to at exactly these points of the trace. *)
Theorem research_history_sizes (subtopic_of : value -> string)
        (W : Type) (H : handler W) (fuel : nat) (topic : string) (depth : number)
        (w : W) :
  map (@length message)
      (histories (snd (fst (research subtopic_of H fuel topic depth w)))) =
  sizes 2 (snd (fst (research subtopic_of H fuel topic depth w))).
Proof.
  exact (loop_sizes subtopic_of H fuel depth (initial_messages topic) w).
Qed.

(** ** Every tool call is answered in the history *)



Section Answered.
Variable subtopic_of : value -> string.
Context {W : Type} (H : handler W).


End Answered.



(** ** Returning, and failing on a response that cannot be used *)

(** X7.  The test [if (response.tool_calls)] is one of truthiness.  When
    [response.tool_calls] is falsy (the field is missing, or it is
    [undefined], [null], [false], [0], [NaN] or the empty string) the
    invocation returns [response.content] at once, whatever that is, having
    begun no child; and an invocation returns in no other way: the last
    effect of a run that returned is a consultation answered by a response
    whose [tool_calls] is falsy, and the result is that response's
    [content]. *)
Theorem research_returns_on_falsy_tool_calls (subtopic_of : value -> string)
        (W : Type) (H : handler W) (depth : number) :
  (forall fuel messages w w1 r calls,
      on_run H messages depth w = (w1, Resolved r) ->
      get "tool_calls" r = inr calls ->
      truthy calls = false ->
      exists result,
        get "content" r = inr result /\
        research_loop subtopic_of H (S fuel) depth messages w =
        (w1, [IoRun messages (Resolved r)],
         Some (Returned result))) /\
  (forall fuel messages w w' t result,
      research_loop subtopic_of H fuel depth messages w =
      (w', t, Some (Returned result)) ->
      exists t0 m r calls,
        t = t0 ++ [IoRun m (Resolved r)] /\
        get "tool_calls" r = inr calls /\ truthy calls = false /\
        get "content" r = inr result).
Proof.
  split.
  - intros fuel messages w w1 r calls E Eg Et.
    destruct (get_content r Eg) as (c & Ec). exists c. split; [exact Ec |].
    exact (loop_plain subtopic_of H fuel depth messages w E Eg Et Ec).
  - intros fuel messages w w' t result. apply loop_returned.
Qed.

(** A response whose [tool_calls] is [null] and whose [content] is [null]:
    [null] is returned. *)
Lemma research_returns_on_falsy_tool_calls_witness :
  exists result,
    get "content" (Object [("content", Null); ("tool_calls", Null)]) = inr result /\
    research_loop topic_of_arguments
                  (live (world_of (replies (Object [("content", Null);
                                                    ("tool_calls", Null)]))))
                  1 (of_Z 1) (initial_messages "X") boot =
    (mk_substrate [] 0 1,
     [IoRun (initial_messages "X")
            (Resolved (Object [("content", Null); ("tool_calls", Null)]))],
     Some (Returned result)).
Proof.
  apply (proj1 (@research_returns_on_falsy_tool_calls topic_of_arguments _
                  (live (world_of (replies (Object [("content", Null);
                                                    ("tool_calls", Null)]))))
                  (of_Z 1))
               0%nat (initial_messages "X") boot (mk_substrate [] 0 1)
               (Object [("content", Null); ("tool_calls", Null)]) Null);
    reflexivity.
Defined.

(** X8.  [research] does not check what the oracle call gives back.  When
    the response is [undefined] or [null], reading [response.tool_calls]
    throws a [TypeError]; when [response.tool_calls] is truthy but neither
    an array nor a string, the loop over it throws a [TypeError].  In both
    cases the invocation ends there with that exception: no child is begun
    and the oracle is not consulted again. *)
Theorem research_throws_on_unusable_response (subtopic_of : value -> string)
        (W : Type) (H : handler W) (fuel : nat) (depth : number)
        (messages : list message) (w w1 : W) (r : value) :
  on_run H messages depth w = (w1, Resolved r) ->
  (r = Undefined \/ r = Null ->
   research_loop subtopic_of H (S fuel) depth messages w =
   (w1, [IoRun messages (Resolved r)],
    Some (Threw (not_readable "tool_calls")))) /\
  (forall calls,
      get "tool_calls" r = inr calls ->
      truthy calls = true ->
      (forall items, calls <> Array items) ->
      (forall s, calls <> Text s) ->
      research_loop subtopic_of H (S fuel) depth messages w =
      (w1, [IoRun messages (Resolved r)],
       Some (Threw not_iterable))).
Proof.
  intros E. split.
  - intros [-> | ->]; rewrite loop_step, exec_body, E; reflexivity.
  - intros calls Eg Et Ha Hs. rewrite loop_step, exec_body, E, Eg, Et.
    destruct calls as [| | b | n | s | items | ps]; try reflexivity.
    + exfalso. exact (Hs s eq_refl).
    + exfalso. exact (Ha items eq_refl).
Qed.

(** An oracle call that gives [undefined], and one whose [tool_calls] is the
    number 1. *)
Lemma research_throws_on_unusable_response_witness :
  research_loop topic_of_arguments (live (world_of (replies Undefined))) 1 (of_Z 1)
                (initial_messages "X") boot =
  (mk_substrate [] 0 1,
   [IoRun (initial_messages "X") (Resolved Undefined)],
   Some (Threw (not_readable "tool_calls"))) /\
  research_loop topic_of_arguments
                (live (world_of (replies (Object [("tool_calls", Number one)]))))
                1 (of_Z 1) (initial_messages "X") boot =
  (mk_substrate [] 0 1,
   [IoRun (initial_messages "X")
          (Resolved (Object [("tool_calls", Number one)]))],
   Some (Threw not_iterable)).
Proof.
  split.
  - apply (proj1 (@research_throws_on_unusable_response topic_of_arguments _
                    (live (world_of (replies Undefined))) 0%nat (of_Z 1)
                    (initial_messages "X") boot (mk_substrate [] 0 1) Undefined
                    eq_refl)).
    left. reflexivity.
  - apply (proj2 (@research_throws_on_unusable_response topic_of_arguments _
                    (live (world_of (replies (Object [("tool_calls", Number one)]))))
                    0%nat (of_Z 1) (initial_messages "X") boot (mk_substrate [] 0 1)
                    (Object [("tool_calls", Number one)]) eq_refl)
                 (Number one)).
    + reflexivity.
    + reflexivity.
    + discriminate.
    + discriminate.
Defined.
